(** * QuadC-GPT: memory manager and resource monitor

    A shallow embedding of
    [backend/open_webui/utils/memory_manager.py] (class [MemoryManager]) and
    [backend/open_webui/routers/retrieval_monitor.py]
    (class [CloudResourceMonitor]), and the properties of the eviction
    coordinator and the sampler that the design document states.

    Conventions of the embedding.
    - A Python float is the rational it stands for ([Q]). The arithmetic the
      code does on floats rounds as binary64 does ([round64]: to nearest,
      ties to even, with gradual underflow); comparisons are exact. Infinities
      and NaN are not values of the model, and the exponent is not bounded
      above: the code's readings are percentages and fractions, far from the
      largest float.
    - The collaborators ([psutil], [Files], [VECTOR_DB_CLIENT], [Storage],
      [gc], [os]) are an interface over an abstract world [W]: each call
      takes the world and gives back a value or an exception, and the next
      world.
    - A computation returns its outcome, the world it leaves, and the trace
      of what it did: every collaborator call (with whether it returned or
      raised) and every log record, oldest first.
    - Exceptions are the subclasses of [Exception], the ones that
      [except Exception] catches. *)

From Stdlib Require Import QArith Qround Qminmax Qabs Lqa.
From Stdlib Require PrimFloat FloatOps SpecFloat.
From stdpp Require Import base option list sorting gmap strings.

Open Scope Z_scope.

(** ** Python values and exceptions *)

Inductive pyval :=
  | VNone
  | VBool (b : bool)
  | VInt (z : Z)
  | VStr (s : string).

(** [a == b] on these values. *)
Definition pyval_eqb (a b : pyval) : bool :=
  match a, b with
  | VNone, VNone => true
  | VBool x, VBool y => Bool.eqb x y
  | VInt x, VInt y => x =? y
  | VStr x, VStr y => String.eqb x y
  | _, _ => false
  end.

(** [bool(v)]: [None], [False], [0] and [''] are falsy. *)
Definition truthy (v : pyval) : bool :=
  match v with
  | VNone => false
  | VBool b => b
  | VInt z => negb (z =? 0)
  | VStr s => negb (String.eqb s "")
  end.

Inductive exn :=
  | KeyError (key : string)
  | ZeroDivisionError
  | Error (msg : string).

Inductive outcome (A : Type) :=
  | Ok (a : A)
  | Raise (e : exn).
Arguments Ok {A} a.
Arguments Raise {A} e.

Definition is_ok {A} (o : outcome A) : bool :=
  match o with Ok _ => true | Raise _ => false end.

(** ** What a run leaves behind *)

Inductive level := DEBUG | INFO | WARNING | ERROR.

Inductive call :=
  | VirtualMemory
  | GetFiles
  | HasCollection (collection_name : pyval)
  | VectorDelete (collection_name file_id : pyval)
  | VectorGet (collection_name : pyval)
  | DeleteCollection (collection_name : pyval)
  | StorageDeleteFile (file_path : pyval)
  | DeleteFileById (file_id : pyval)
  | GcCollect
  | OsSync
  | ProcessRss
  | ActiveCount
  | TimeTime
  | Sleep (seconds : Z).

(** The log records, one constructor per [log.*] line of the two files. *)
Inductive message :=
  | MsgOldestFilesError (e : exn)
  | MsgCleaningUp (file_id filename : pyval)
  | MsgRemovedVectors (file_id collection_name : pyval)
  | MsgDeletedEmptyCollection (collection_name : pyval)
  | MsgVectorError (file_id : pyval) (e : exn)
  | MsgDeletedPhysicalFile (file_path : pyval)
  | MsgPhysicalFileError (file_path : pyval) (e : exn)
  | MsgDeletedRecord (file_id : pyval)
  | MsgCleanupError (e : exn)
  | MsgCacheFlushed
  | MsgCacheFlushError (e : exn)
  | MsgCacheError (e : exn)
  | MsgStartingCleanup (memory cache : Q)
  | MsgNoFiles
  | MsgCleanedFile (filename : pyval)
  | MsgFailedFile (filename : pyval)
  | MsgCleanupCompleted (cleaned_files : Z)
  | MsgMemoryDelta (before after freed : Q)
  | MsgCacheDelta (before after : Q)
  | MsgMemoryCheck (memory cache threshold : Q)
  | MsgThresholdExceeded (memory cache : Q)
  | MsgHighMemory (memory_mb : Q)
  | MsgHighThreadCount (thread_count : Z)
  | MsgMonitoringError (e : exn).

Inductive event :=
  | Called (c : call) (returned : bool)
  | Logged (lvl : level) (msg : message).

(** ** The monad of the embedding *)

Record run (W A : Type) := Run {
  out : outcome A;
  world : W;
  trace : list event
}.
Arguments Run {W A} out world trace.
Arguments out {W A} r.
Arguments world {W A} r.
Arguments trace {W A} r.

Definition M (W A : Type) : Type := W -> run W A.

Definition ret {W A} (a : A) : M W A := fun w => Run (Ok a) w [].

Definition raise {W A} (e : exn) : M W A := fun w => Run (Raise e) w [].

Definition bind {W A B} (m : M W A) (f : A -> M W B) : M W B :=
  fun w =>
    match m w with
    | Run (Ok a) w1 t1 =>
        match f a w1 with
        | Run o w2 t2 => Run o w2 (t1 ++ t2)
        end
    | Run (Raise e) w1 t1 => Run (Raise e) w1 t1
    end.

(** [try: m except Exception as e: h e]. The effects of [m] up to the
    exception stay. *)
Definition try_except {W A} (m : M W A) (h : exn -> M W A) : M W A :=
  fun w =>
    match m w with
    | Run (Ok a) w1 t1 => Run (Ok a) w1 t1
    | Run (Raise e) w1 t1 =>
        match h e w1 with
        | Run o w2 t2 => Run o w2 (t1 ++ t2)
        end
    end.

Definition log {W} (lvl : level) (msg : message) : M W unit :=
  fun w => Run (Ok tt) w [Logged lvl msg].

(** A collaborator call: run it on the world and record it. *)
Definition invoke {W A} (c : call) (f : W -> outcome A * W) : M W A :=
  fun w =>
    let '(o, w') := f w in
    Run o w' [Called c (is_ok o)].

(** The monad is an instance of stdpp's [MRet] and [MBind], which gives the
    notations [x ← m; k] and [m;; k]. *)
#[global] Instance M_ret {W} : MRet (M W) := fun A a => ret a.
#[global] Instance M_bind {W} : MBind (M W) := fun A B f m => bind m f.


(** ** Python built-ins the two files use *)

(** [2^e], for an exponent of either sign. *)
Definition pow2 (e : Z) : Q :=
  match e with
  | Z0 => 1
  | Zpos p => inject_Z (2 ^ Zpos p)
  | Zneg p => 1 # (2 ^ p)
  end.

(** The binary order of magnitude of a positive rational: the [k] with
    [2^k <= x < 2^(k+1)]. *)
Definition ilog2 (x : Q) : Z :=
  let k := Z.log2 (Qnum x) - Z.log2 (Zpos (Qden x)) in
  if Qle_bool (pow2 k) x then k else k - 1.

(** The integer nearest to a non-negative rational, ties to the even one. *)
Definition round_half_even (s : Q) : Z :=
  let f := Qfloor s in
  let r := (s - inject_Z f)%Q in
  match (r ?= 1 # 2)%Q with
  | Lt => f
  | Gt => f + 1
  | Eq => if Z.even f then f else f + 1
  end.

(** The binary64 number nearest to a rational, ties to even: 53 bits of
    mantissa, and no exponent below -1074 (the subnormal numbers). *)
Definition round64 (x : Q) : Q :=
  if Qeq_bool x 0 then 0%Q
  else
    let e := Z.max (-1074) (ilog2 (Qabs x) - 52) in
    let m := round_half_even (Qabs x * pow2 (- e)) in
    let y := (inject_Z m * pow2 e)%Q in
    if Qle_bool 0 x then y else (- y)%Q.

(** [a / b], [a * b] and [a - b] on floats. *)
Definition float_div (a b : Q) : Q := round64 (a / b).
Definition float_mul (a b : Q) : Q := round64 (a * b).
Definition float_sub (a b : Q) : Q := round64 (a - b).

(** [a / b] on integers: the float nearest to the quotient. *)
Definition int_truediv (a b : Z) : Q := round64 (inject_Z a / inject_Z b).

(** A decimal literal of the source: the float nearest to it. *)
Definition literal (x : Q) : Q := round64 x.

(** The rational a binary64 number of the kernel stands for; [round64] is
    checked against the kernel's floats below. *)
Definition SF2Q (f : SpecFloat.spec_float) : Q :=
  match f with
  | SpecFloat.S754_finite s m e =>
      let y := (inject_Z (Zpos m) * pow2 e)%Q in
      if s then (- y)%Q else y
  | _ => 0%Q
  end.

Definition F2Q (f : PrimFloat.float) : Q := SF2Q (FloatOps.Prim2SF f).

(** [a > b] on floats. *)
Definition Qgtb (a b : Q) : bool := negb (Qle_bool a b).

(** [max(a, b)]: the first argument unless the second is greater. *)
Definition py_max (a b : Q) : Q := if Qgtb b a then b else a.

(** [int(x)] on a float: truncation towards zero. *)
Definition py_int (x : Q) : Z := Z.quot (Qnum x) (Z.pos (Qden x)).

(** [l[:limit]]: a non-negative limit keeps the first [limit] items, a
    negative one drops the last [-limit]. *)
Definition py_slice_to {A} (limit : Z) (l : list A) : list A :=
  if 0 <=? limit then take (Z.to_nat limit) l
  else take (Z.to_nat (Z.of_nat (length l) + limit)) l.

(** [sorted(l, key=key)] with integer keys: ascending and stable. An item
    goes in front of the already sorted later items whose key is not
    smaller. *)
Fixpoint insert_by {A} (key : A -> Z) (x : A) (l : list A) : list A :=
  match l with
  | [] => [x]
  | y :: l' => if key x <=? key y then x :: y :: l' else y :: insert_by key x l'
  end.

Definition sorted {A} (key : A -> Z) (l : list A) : list A :=
  foldr (insert_by key) [] l.

(** [d[k]] and [d.get(k)] on a dict with string keys. *)
Definition getitem {W} (d : gmap string pyval) (k : string) : M W pyval :=
  match d !! k with
  | Some v => mret v
  | None => raise (KeyError k)
  end.

Definition dict_get (d : gmap string pyval) (k : string) : pyval :=
  default VNone (d !! k).

(** ** The collaborators *)

(** [psutil.virtual_memory()], the fields that are read. *)
Record svmem := {
  percent : Q;
  cached : Z;
  buffers : Z;
  total : Z
}.

(** A row of [Files.get_files()], the fields that are read. *)
Record FileModel := {
  id : string;
  filename : string;
  created_at : Z;
  path : pyval;
  meta : gmap string pyval
}.

(** The answer of [VECTOR_DB_CLIENT.get], the field that is read. *)
Record GetResult := {
  documents : option (list (list string))
}.

Class Collaborators (W : Type) := {
  psutil_virtual_memory : W -> outcome svmem * W;
  Files_get_files : W -> outcome (list FileModel) * W;
  Files_delete_file_by_id : pyval -> W -> outcome bool * W;
  VECTOR_DB_CLIENT_has_collection : pyval -> W -> outcome bool * W;
  VECTOR_DB_CLIENT_delete : pyval -> pyval -> W -> outcome unit * W;
  VECTOR_DB_CLIENT_get : pyval -> W -> outcome (option GetResult) * W;
  VECTOR_DB_CLIENT_delete_collection : pyval -> W -> outcome unit * W;
  Storage_delete_file : pyval -> W -> outcome unit * W;
  gc_collect : W -> outcome unit * W;
  os_system_sync : W -> outcome unit * W;
  (** [psutil.Process().memory_info().rss] *)
  psutil_Process_rss : W -> outcome Z * W;
  threading_active_count : W -> outcome Z * W;
  time_time : W -> outcome Q * W;
  (** [time.sleep] returns; the world may have moved on meanwhile. *)
  time_sleep : Z -> W -> W
}.

Definition sleep `{Collaborators W} (seconds : Z) : M W unit :=
  invoke (Sleep seconds) (fun w => (Ok tt, time_sleep seconds w)).

(** ** memory_manager.py *)

Record MemoryManager := {
  memory_threshold : Q
}.

(** [MemoryManager()]: the default threshold, 0.70. *)
Definition memory_manager : MemoryManager :=
  {| memory_threshold := literal 0.70 |}.

(** The dict [perform_memory_cleanup] returns. *)
Record report := {
  cleaned_files : Z;
  memory_before : Q;
  memory_after : Q;
  cache_before : Q;
  cache_after : Q;
  freed_memory : Q
}.

Section memory_manager.
Context `{Collaborators W}.

Definition get_memory_usage (self : MemoryManager) : M W Q :=
  vm ← invoke VirtualMemory psutil_virtual_memory;
  mret (float_mul (float_div (percent vm) 100) 100).

Definition get_cache_usage (self : MemoryManager) : M W Q :=
  memory_info ← invoke VirtualMemory psutil_virtual_memory;
  if total memory_info =? 0 then raise ZeroDivisionError
  else
    let cache_usage :=
      int_truediv (cached memory_info + buffers memory_info)
        (total memory_info) in
    mret cache_usage.

(** The dict built for one file at lines 53-59. *)
Definition file_record (file : FileModel) : gmap string pyval :=
  {[ "id" := VStr (id file);
     "filename" := VStr (filename file);
     "created_at" := VInt (created_at file);
     "path" := path file;
     "collection_name" := dict_get (meta file) "collection_name" ]}.

Definition get_oldest_files (self : MemoryManager) (limit : Z)
  : M W (list (gmap string pyval)) :=
  try_except
    (files ← invoke GetFiles Files_get_files;
     match files with
     | [] => mret []
     | _ =>
         let sorted_files := sorted created_at files in
         mret (file_record <$> py_slice_to limit sorted_files)
     end)
    (fun e => log ERROR (MsgOldestFilesError e);; mret []).

(** [not result or not result.documents or not result.documents[0]] *)
Definition no_documents (result : option GetResult) : bool :=
  match result with
  | None => true
  | Some r =>
      match documents r with
      | None | Some [] => true
      | Some (first :: _) =>
          match first with [] => true | _ :: _ => false end
      end
  end.

(** Lines 84-101: the vector database step. *)
Definition remove_vectors (collection_name file_id : pyval) : M W unit :=
  if truthy collection_name then
    try_except
      (has ← invoke (HasCollection collection_name)
               (VECTOR_DB_CLIENT_has_collection collection_name);
       if has : bool then
         invoke (VectorDelete collection_name file_id)
           (VECTOR_DB_CLIENT_delete collection_name file_id);;
         log INFO (MsgRemovedVectors file_id collection_name);;
         result ← invoke (VectorGet collection_name)
                    (VECTOR_DB_CLIENT_get collection_name);
         if no_documents result then
           invoke (DeleteCollection collection_name)
             (VECTOR_DB_CLIENT_delete_collection collection_name);;
           log INFO (MsgDeletedEmptyCollection collection_name)
         else mret tt
       else mret tt)
      (fun e => log ERROR (MsgVectorError file_id e))
  else mret tt.

(** Lines 104-109: the storage step. *)
Definition remove_physical_file (file_path : pyval) : M W unit :=
  if truthy file_path then
    try_except
      (invoke (StorageDeleteFile file_path) (Storage_delete_file file_path);;
       log INFO (MsgDeletedPhysicalFile file_path))
      (fun e => log ERROR (MsgPhysicalFileError file_path e))
  else mret tt.

Definition cleanup_file_and_vectors (self : MemoryManager)
    (file_record : gmap string pyval) : M W bool :=
  try_except
    (file_id ← getitem file_record "id";
     let collection_name := dict_get file_record "collection_name" in
     let file_path := dict_get file_record "path" in
     filename ← getitem file_record "filename";
     log INFO (MsgCleaningUp file_id filename);;
     remove_vectors collection_name file_id;;
     remove_physical_file file_path;;
     invoke (DeleteFileById file_id) (Files_delete_file_by_id file_id);;
     log INFO (MsgDeletedRecord file_id);;
     mret true)
    (fun e => log ERROR (MsgCleanupError e);; mret false).

Definition cleanup_cache_memory (self : MemoryManager) : M W unit :=
  try_except
    (invoke GcCollect gc_collect;;
     try_except
       (invoke OsSync os_system_sync;;
        log INFO MsgCacheFlushed)
       (fun e => log DEBUG (MsgCacheFlushError e)))
    (fun e => log ERROR (MsgCacheError e)).

(** Lines 167-173: the loop over the selected records. *)
Fixpoint cleanup_each (self : MemoryManager)
    (oldest_files : list (gmap string pyval)) (cleaned_files : Z) : M W Z :=
  match oldest_files with
  | [] => mret cleaned_files
  | file_record :: rest =>
      cleaned ← cleanup_file_and_vectors self file_record;
      if cleaned : bool then
        filename ← getitem file_record "filename";
        log INFO (MsgCleanedFile filename);;
        cleanup_each self rest (cleaned_files + 1)
      else
        filename ← getitem file_record "filename";
        log ERROR (MsgFailedFile filename);;
        cleanup_each self rest cleaned_files
  end.

Definition perform_memory_cleanup (self : MemoryManager) (cleanup_count : Z)
  : M W report :=
  start_memory ← get_memory_usage self;
  start_cache ← get_cache_usage self;
  log INFO (MsgStartingCleanup start_memory start_cache);;
  oldest_files ← get_oldest_files self cleanup_count;
  match oldest_files with
  | [] =>
      log WARNING MsgNoFiles;;
      mret {| cleaned_files := 0;
              memory_before := start_memory;
              memory_after := start_memory;
              cache_before := start_cache;
              cache_after := start_cache;
              freed_memory := 0 |}
  | _ =>
      cleaned_files ← cleanup_each self oldest_files 0;
      cleanup_cache_memory self;;
      sleep 2;;
      end_memory ← get_memory_usage self;
      end_cache ← get_cache_usage self;
      let freed_memory := float_sub start_memory end_memory in
      log INFO (MsgCleanupCompleted cleaned_files);;
      log INFO (MsgMemoryDelta start_memory end_memory freed_memory);;
      log INFO (MsgCacheDelta start_cache end_cache);;
      mret {| cleaned_files := cleaned_files;
              memory_before := start_memory;
              memory_after := end_memory;
              cache_before := start_cache;
              cache_after := end_cache;
              freed_memory := freed_memory |}
  end.

(** Lines 216-217. *)
Definition cleanup_count (self : MemoryManager)
    (current_memory current_cache : Q) : Z :=
  let excess_memory :=
    py_max (float_sub current_memory (memory_threshold self))
           (float_sub current_cache (memory_threshold self)) in
  Z.max 1 (py_int (float_mul excess_memory 20)).

Definition check_and_cleanup_memory (self : MemoryManager)
  : M W (option report) :=
  current_memory ← get_memory_usage self;
  current_cache ← get_cache_usage self;
  log DEBUG (MsgMemoryCheck current_memory current_cache
               (memory_threshold self));;
  if Qgtb current_memory (memory_threshold self)
     || Qgtb current_cache (memory_threshold self)
  then
    log WARNING (MsgThresholdExceeded current_memory current_cache);;
    r ← perform_memory_cleanup self
          (cleanup_count self current_memory current_cache);
    mret (Some r)
  else mret None.

End memory_manager.

(** ** retrieval_monitor.py *)

(** The dict stored in [self.stats]. *)
Record sample := {
  memory_mb : Q;
  thread_count : Z;
  timestamp : Q
}.

(** The object; [stats = None] is the empty dict of [__init__]. *)
Record CloudResourceMonitor := {
  monitoring : bool;
  stats : option sample
}.

(** [CloudResourceMonitor()] *)
Definition resource_monitor : CloudResourceMonitor :=
  {| monitoring := false; stats := None |}.

Definition stop_monitoring (self : CloudResourceMonitor) : CloudResourceMonitor :=
  {| monitoring := false; stats := stats self |}.

(** [start_monitoring]: sets the flag, unless the loop is already running.
    The thread it starts runs [_monitor_loop] below. *)
Definition start_monitoring (self : CloudResourceMonitor) : CloudResourceMonitor :=
  if negb (monitoring self)
  then {| monitoring := true; stats := stats self |}
  else self.

Section retrieval_monitor.
Context `{Collaborators W}.

(** Lines 26-42: the body of the [try]. The object is passed in and the
    object as the body leaves it is returned. *)
Definition sample_once (self : CloudResourceMonitor)
  : M W CloudResourceMonitor :=
  rss ← invoke ProcessRss psutil_Process_rss;
  let memory_mb := (inject_Z rss / 1024 / 1024)%Q in
  thread_count ← invoke ActiveCount threading_active_count;
  (if Qgtb memory_mb 1000 then log WARNING (MsgHighMemory memory_mb)
   else mret tt);;
  (if 15 <? thread_count then log WARNING (MsgHighThreadCount thread_count)
   else mret tt);;
  now ← invoke TimeTime time_time;
  let self' :=
    {| monitoring := monitoring self;
       stats := Some {| memory_mb := memory_mb;
                        thread_count := thread_count;
                        timestamp := now |} |} in
  sleep 30;;
  mret self'.

(** Lines 25-45: one turn of the [while] loop. *)
Definition monitor_cycle (self : CloudResourceMonitor)
  : M W CloudResourceMonitor :=
  try_except
    (sample_once self)
    (fun e =>
       log ERROR (MsgMonitoringError e);;
       sleep 60;;
       mret self).

(** [_monitor_loop], its first [turns] turns: the loop itself ends only
    when [monitoring] is cleared. *)
Fixpoint _monitor_loop (turns : nat) (self : CloudResourceMonitor)
  : M W CloudResourceMonitor :=
  match turns with
  | O => mret self
  | S turns' =>
      if monitoring self then
        self' ← monitor_cycle self;
        _monitor_loop turns' self'
      else mret self
  end.

End retrieval_monitor.

(** ** A scripted world

    The catalog is the state; every other collaborator gives the answer the
    script fixes. It is the world of the examples. *)

Record script := {
  s_virtual_memory : outcome svmem;
  s_catalog_up : bool;
  s_has_collection : outcome bool;
  s_vector_delete : outcome unit;
  s_vector_get : outcome (option GetResult);
  s_delete_collection : outcome unit;
  s_storage_delete : outcome unit;
  s_gc : outcome unit;
  s_sync : outcome unit;
  s_rss : outcome Z;
  s_threads : outcome Z;
  s_time : outcome Q
}.

Definition catalog_down : exn := Error "catalog unreachable".

Definition scripted (sc : script) : Collaborators (list FileModel) := {|
  psutil_virtual_memory w := (s_virtual_memory sc, w);
  Files_get_files w :=
    (if s_catalog_up sc then Ok w else Raise catalog_down, w);
  Files_delete_file_by_id file_id w :=
    if s_catalog_up sc
    then (Ok true, filter (fun f => negb (pyval_eqb (VStr (id f)) file_id)) w)
    else (Raise catalog_down, w);
  VECTOR_DB_CLIENT_has_collection _ w := (s_has_collection sc, w);
  VECTOR_DB_CLIENT_delete _ _ w := (s_vector_delete sc, w);
  VECTOR_DB_CLIENT_get _ w := (s_vector_get sc, w);
  VECTOR_DB_CLIENT_delete_collection _ w := (s_delete_collection sc, w);
  Storage_delete_file _ w := (s_storage_delete sc, w);
  gc_collect w := (s_gc sc, w);
  os_system_sync w := (s_sync sc, w);
  psutil_Process_rss w := (s_rss sc, w);
  threading_active_count w := (s_threads sc, w);
  time_time w := (s_time sc, w);
  time_sleep _ w := w
|}.

(** ** The design document's budget

    [reclaimBudget] and the excess it is applied to, as the document words
    them: a maximum and a floor. The subtractions and the product are those
    of floats. [cleanup_count] above is what the code computes. *)



(** ** Observations on runs and traces *)

(** [yields Q m]: in any world [m] returns, and what it returns satisfies
    [Q]. [returns m]: no exception leaves [m]. *)
Definition yields {W A} (Q : A -> Prop) (m : M W A) : Prop :=
  forall w, exists a, out (m w) = Ok a /\ Q a.

Definition returns {W A} (m : M W A) : Prop :=
  forall w, exists a, out (m w) = Ok a.

(** [emits P m]: every event of every run of [m] satisfies [P]. *)
Definition emits {W A} (P : event -> Prop) (m : M W A) : Prop :=
  forall w, Forall P (trace (m w)).

(** The calls of a trace, in order. *)
Definition calls (t : list event) : list call :=
  omap (fun e => match e with Called c _ => Some c | Logged _ _ => None end) t.

(** The catalog deletions of a trace: the id and whether the call returned. *)
Definition catalog_deletes (t : list event) : list (pyval * bool) :=
  omap (fun e => match e with
                 | Called (DeleteFileById i) b => Some (i, b)
                 | _ => None
                 end) t.

(** The calls that delete from a store. *)
Definition is_delete (c : call) : bool :=
  match c with
  | VectorDelete _ _ | DeleteCollection _ | StorageDeleteFile _
  | DeleteFileById _ => true
  | _ => false
  end.

Definition deletions (t : list event) : list call := filter is_delete (calls t).

(** What each part of the code may emit. *)
Definition reading_step (e : event) : Prop :=
  match e with
  | Called VirtualMemory _ => True
  | Called _ _ => False
  | Logged _ _ => True
  end.

Definition vector_step (e : event) : Prop :=
  match e with
  | Called (HasCollection _ | VectorDelete _ _ | VectorGet _
            | DeleteCollection _) _ => True
  | Called _ _ => False
  | Logged _ _ => True
  end.

Definition storage_step (e : event) : Prop :=
  match e with
  | Called (StorageDeleteFile _) _ => True
  | Called _ _ => False
  | Logged _ _ => True
  end.

Definition sampling_step (e : event) : Prop :=
  match e with
  | Called (ProcessRss | ActiveCount | TimeTime) _ => True
  | Called _ _ => False
  | Logged _ _ => True
  end.

(** Ascending by key; for files, oldest first. *)
Definition ascending {A} (key : A -> Z) (x y : A) : Prop := key x <= key y.

Definition older : FileModel -> FileModel -> Prop := ascending created_at.

(** A record has the two keys every cascade reads with [[]]. *)
Definition has_id_and_filename (r : gmap string pyval) : Prop :=
  is_Some (r !! "id") /\ is_Some (r !! "filename").

(** ** Example worlds *)

Definition vm_of (p : Q) : svmem :=
  {| percent := literal p; cached := 10; buffers := 5; total := 100 |}.

(** A script by the answers that vary between the examples; the rest
    succeed. *)
Definition script_of (vm : outcome svmem) (catalog_up : bool)
    (has : outcome bool) (vdelete : outcome unit)
    (vget : outcome (option GetResult)) (storage : outcome unit) : script :=
  {| s_virtual_memory := vm;
     s_catalog_up := catalog_up;
     s_has_collection := has;
     s_vector_delete := vdelete;
     s_vector_get := vget;
     s_delete_collection := Ok tt;
     s_storage_delete := storage;
     s_gc := Ok tt;
     s_sync := Ok tt;
     s_rss := Ok 1048576;
     s_threads := Ok 4;
     s_time := Ok 0%Q |}.

Definition store_down : exn := Error "store unreachable".
Definition psutil_down : exn := Error "psutil failed".

(** Every store answers. *)
Definition calm (p : Q) : script :=
  script_of (Ok (vm_of p)) true (Ok true) (Ok tt) (Ok None) (Ok tt).

(** The vector index and the blob store fail; the catalog answers. *)
Definition dependents_down (p : Q) : script :=
  script_of (Ok (vm_of p)) true (Raise store_down) (Raise store_down)
    (Raise store_down) (Raise store_down).


(** The measurement fails. *)
Definition blind : script :=
  script_of (Raise psutil_down) true (Ok true) (Ok tt) (Ok None) (Ok tt).

(** The sampler's measurement fails. *)
Definition sampler_blind : script :=
  {| s_virtual_memory := Ok (vm_of 50);
     s_catalog_up := true;
     s_has_collection := Ok true;
     s_vector_delete := Ok tt;
     s_vector_get := Ok None;
     s_delete_collection := Ok tt;
     s_storage_delete := Ok tt;
     s_gc := Ok tt;
     s_sync := Ok tt;
     s_rss := Raise psutil_down;
     s_threads := Ok 4;
     s_time := Ok 0%Q |}.

Definition file_a : FileModel :=
  {| id := "a"; filename := "a.txt"; created_at := 30; path := VStr "/data/a";
     meta := {[ "collection_name" := VStr "file-a" ]} |}.

Definition file_b : FileModel :=
  {| id := "b"; filename := "b.txt"; created_at := 10; path := VNone;
     meta := ∅ |}.

Definition file_c : FileModel :=
  {| id := "c"; filename := "c.txt"; created_at := 20; path := VStr "/data/c";
     meta := ∅ |}.

(** ** Further observations *)

(** The sleeps of a trace, in order. *)
Definition sleeps (t : list event) : list Z :=
  omap (fun e => match e with Called (Sleep s) _ => Some s | _ => None end) t.

(** How many of the catalog deletions returned. *)
Definition successes (ds : list (pyval * bool)) : Z :=
  Z.of_nat (length (filter (fun d : pyval * bool => Is_true d.2) ds)).

(** The ids of a list of records, as [r["id"]] reads them. *)
Definition record_ids (rs : list (gmap string pyval)) : list pyval :=
  omap (fun r : gmap string pyval => r !! "id") rs.

(** The calls of the vector step. *)
Definition is_vector_call (c : call) : bool :=
  match c with
  | HasCollection _ | VectorDelete _ _ | VectorGet _ | DeleteCollection _ => true
  | _ => false
  end.

(** Everything but a catalog deletion. *)
Definition keeps_catalog (e : event) : Prop :=
  match e with
  | Called (DeleteFileById _) _ => False
  | _ => True
  end.

(** ** Further examples *)


(** The catalog is unreachable. *)
Definition catalog_unreachable (p : Q) : script :=
  script_of (Ok (vm_of p)) false (Ok true) (Ok tt) (Ok None) (Ok tt).

(** A file created at the same time as [file_b]. *)
Definition file_d : FileModel :=
  {| id := "d"; filename := "d.txt"; created_at := 10; path := VStr "/data/d";
     meta := ∅ |}.

(** ** project tree.py, the end of memory_manager.py *)

(** [sorted(names)] on strings: ascending by code point. *)
Definition sorted_names (names : list string) : list string :=
  merge_sort String.le names.

Section project_tree.
Variable os_listdir : string -> outcome (list string).
Variable os_path_isdir : string -> bool.
Variable os_path_join : string -> string -> string.

(** Lines 232-240: the loop, from index [idx] on, over the files that
    remain. [recur] is the recursive call. *)
Fixpoint tree_entries (recur : string -> string -> outcome (list string))
    (start_path prefix : string) (len idx : Z) (files : list string)
    (tree_lines : list string) : outcome (list string) :=
  match files with
  | [] => Ok tree_lines
  | file :: rest =>
      if String.eqb file ".git"
      then tree_entries recur start_path prefix len (idx + 1) rest tree_lines
      else
        let path := os_path_join start_path file in
        let connector := if idx =? len - 1 then "└── " else "├── " in
        let tree_lines := tree_lines ++ [prefix +:+ connector +:+ file] in
        if os_path_isdir path then
          let extension := if idx =? len - 1 then "    " else "│   " in
          match recur path (prefix +:+ extension) with
          | Ok lines =>
              tree_entries recur start_path prefix len (idx + 1) rest
                (tree_lines ++ lines)
          | Raise e => Raise e
          end
        else tree_entries recur start_path prefix len (idx + 1) rest tree_lines
  end.

(** [generate_tree(start_path, prefix)]. [depth] bounds the nesting of the
    calls, as the recursion limit of the interpreter does; a call beyond it
    raises [RecursionError]. *)
Fixpoint generate_tree (depth : nat) (start_path prefix : string)
  : outcome (list string) :=
  match depth with
  | O => Raise (Error "RecursionError")
  | S depth' =>
      match os_listdir start_path with
      | Raise e => Raise e
      | Ok names =>
          let files := sorted_names names in
          tree_entries (generate_tree depth') start_path prefix
            (Z.of_nat (length files)) 0 files []
      end
  end.

End project_tree.

(** A line starts with a prefix. *)
Definition starts_with (prefix line : string) : Prop :=
  exists rest, line = prefix +:+ rest.

(** The listing of the files of a directory without subdirectories: the
    last file closes the listing, [.git] is left out. *)
Fixpoint flat_lines (prefix : string) (files : list string) : list string :=
  match files with
  | [] => []
  | file :: rest =>
      (if String.eqb file ".git" then []
       else [prefix +:+ (match rest with [] => "└── " | _ => "├── " end) +:+ file])
      ++ flat_lines prefix rest
  end.

(** A small file system: [static] holds three entries, of which [.git] is
    a directory that cannot be listed. *)
Definition demo_listdir (p : string) : outcome (list string) :=
  if String.eqb p "static" then Ok [".env"; ".git"; ".dockerignore"]
  else Raise (Error "PermissionError").

Definition demo_isdir (p : string) : bool := String.eqb p "static/.git".

Definition demo_join (a b : string) : string := a +:+ "/" +:+ b.

(** ** What an answer of the vector index holds *)



(** ** Two more worlds *)




(** * Properties *)

(** ** Runs of the monad *)

Section runs.
Context {W : Type}.

Lemma bind_Ok {A B} (m : M W A) (f : A -> M W B) w a :
  out (m w) = Ok a ->
  (m ≫= f) w =
    Run (out (f a (world (m w)))) (world (f a (world (m w))))
        (trace (m w) ++ trace (f a (world (m w)))).
Proof.
  unfold mbind, M_bind, bind. destruct (m w) as [o w1 t1]. cbn. intros ->.
  now destruct (f a w1).
Qed.

Lemma bind_Raise {A B} (m : M W A) (f : A -> M W B) w e :
  out (m w) = Raise e ->
  (m ≫= f) w = Run (Raise e) (world (m w)) (trace (m w)).
Proof.
  unfold mbind, M_bind, bind. destruct (m w) as [o w1 t1]. cbn. now intros ->.
Qed.

Lemma try_except_Ok {A} (m : M W A) h w a :
  out (m w) = Ok a -> try_except m h w = m w.
Proof.
  unfold try_except. destruct (m w) as [o w1 t1]. cbn. now intros ->.
Qed.

Lemma try_except_Raise {A} (m : M W A) h w e :
  out (m w) = Raise e ->
  try_except m h w =
    Run (out (h e (world (m w)))) (world (h e (world (m w))))
        (trace (m w) ++ trace (h e (world (m w)))).
Proof.
  unfold try_except. destruct (m w) as [o w1 t1]. cbn. intros ->.
  now destruct (h e w1).
Qed.

Lemma returns_mret {A} (a : A) : returns (mret a : M W A).
Proof. intros w. now exists a. Qed.

Lemma returns_log lvl msg : returns (log lvl msg : M W unit).
Proof. intros w. now exists tt. Qed.

Lemma returns_bind {A B} (m : M W A) (f : A -> M W B) :
  returns m -> (forall a, returns (f a)) -> returns (m ≫= f).
Proof.
  intros Hm Hf w. destruct (Hm w) as [a Ha].
  destruct (Hf a (world (m w))) as [b Hb].
  exists b. now rewrite (bind_Ok _ _ _ _ Ha).
Qed.

Lemma returns_try_except {A} (m : M W A) h :
  (forall e, returns (h e)) -> returns (try_except m h).
Proof.
  intros Hh w. destruct (out (m w)) as [a|e] eqn:Hm.
  - exists a. now rewrite (try_except_Ok _ _ _ _ Hm).
  - destruct (Hh e (world (m w))) as [a Ha].
    exists a. now rewrite (try_except_Raise _ _ _ _ Hm).
Qed.

Lemma emits_mret {A} P (a : A) : emits P (mret a : M W A).
Proof. intros w. constructor. Qed.

Lemma emits_raise {A} P e : emits P (raise e : M W A).
Proof. intros w. constructor. Qed.

Lemma emits_log P lvl msg : P (Logged lvl msg) -> emits P (log lvl msg : M W unit).
Proof. intros HP w. now repeat constructor. Qed.

Lemma emits_invoke {A} P c (f : W -> outcome A * W) :
  (forall b, P (Called c b)) -> emits P (invoke c f).
Proof.
  intros HP w. unfold invoke. destruct (f w) as [o w'].
  now repeat constructor.
Qed.

Lemma emits_bind {A B} P (m : M W A) (f : A -> M W B) :
  emits P m -> (forall a, emits P (f a)) -> emits P (m ≫= f).
Proof.
  intros Hm Hf w. destruct (out (m w)) as [a|e] eqn:Ho.
  - rewrite (bind_Ok _ _ _ _ Ho). cbn. apply Forall_app. split; [apply Hm | apply Hf].
  - rewrite (bind_Raise _ _ _ _ Ho). apply Hm.
Qed.

Lemma emits_try_except {A} P (m : M W A) h :
  emits P m -> (forall e, emits P (h e)) -> emits P (try_except m h).
Proof.
  intros Hm Hh w. destruct (out (m w)) as [a|e] eqn:Ho.
  - rewrite (try_except_Ok _ _ _ _ Ho). apply Hm.
  - rewrite (try_except_Raise _ _ _ _ Ho). cbn.
    apply Forall_app. split; [apply Hm | apply Hh].
Qed.

End runs.

(** Walks the code under [returns] or [emits]: one lemma per construct, a
    case split per branch. *)
Ltac walk :=
  repeat (intros;
    first [ apply emits_bind | apply emits_try_except | apply emits_mret
          | apply emits_raise | apply emits_log | apply emits_invoke
          | apply returns_bind | apply returns_try_except | apply returns_mret
          | apply returns_log
          | match goal with
            | |- context [if ?b then _ else _] => destruct b
            | |- context [match ?x with _ => _ end] => destruct x
            end
          | exact I ]).

(** ** The cascade of one record *)

Lemma calls_app t1 t2 : calls (t1 ++ t2) = calls t1 ++ calls t2.
Proof. apply omap_app. Qed.

Lemma catalog_deletes_app t1 t2 :
  catalog_deletes (t1 ++ t2) = catalog_deletes t1 ++ catalog_deletes t2.
Proof. apply omap_app. Qed.

Lemma catalog_deletes_none (P : event -> Prop) t :
  (forall i b, ~ P (Called (DeleteFileById i) b)) ->
  Forall P t -> catalog_deletes t = [].
Proof.
  intros HP. induction 1 as [|e t He _ IH]; [reflexivity|].
  unfold catalog_deletes in *. cbn. rewrite IH.
  destruct e as [[] b|]; try reflexivity. now destruct (HP file_id b).
Qed.

Section cascade.
Context `{Collaborators W}.

Lemma remove_vectors_returns c fid : returns (remove_vectors c fid : M W unit).
Proof. unfold remove_vectors. walk. Qed.

Lemma remove_physical_file_returns p : returns (remove_physical_file p : M W unit).
Proof. unfold remove_physical_file. walk. Qed.

Lemma remove_vectors_emits c fid : emits vector_step (remove_vectors c fid : M W unit).
Proof. unfold remove_vectors. walk. Qed.

Lemma remove_physical_file_emits p :
  emits storage_step (remove_physical_file p : M W unit).
Proof. unfold remove_physical_file. walk. Qed.

(** The shape of every cascade on a record that has its [id] and
    [filename]: the two best-effort steps, then the catalog deletion,
    whose outcome is the result. *)
Lemma cleanup_file_and_vectors_run self (rec : gmap string pyval) w fid fname :
  rec !! "id" = Some fid -> rec !! "filename" = Some fname ->
  let r1 := remove_vectors (dict_get rec "collection_name") fid w in
  let r2 := remove_physical_file (dict_get rec "path") (world r1) in
  let o := Files_delete_file_by_id fid (world r2) in
  cleanup_file_and_vectors self rec w =
    Run (Ok (is_ok o.1)) o.2
      (Logged INFO (MsgCleaningUp fid fname)
         :: trace r1 ++ trace r2
         ++ [Called (DeleteFileById fid) (is_ok o.1);
             match o.1 with
             | Ok _ => Logged INFO (MsgDeletedRecord fid)
             | Raise e => Logged ERROR (MsgCleanupError e)
             end]).
Proof.
  intros Hid Hfn r1 r2 o. subst o r2 r1.
  unfold cleanup_file_and_vectors, getitem, try_except, mbind, M_bind, bind, invoke.
  rewrite Hid, Hfn. cbn -[remove_vectors remove_physical_file].
  destruct (remove_vectors_returns (dict_get rec "collection_name") fid w) as [[] H1].
  destruct (remove_vectors _ fid w) as [o1 w1 t1].
  cbn -[remove_physical_file] in H1 |- *. subst o1.
  destruct (remove_physical_file_returns (dict_get rec "path") w1) as [[] H2].
  destruct (remove_physical_file _ w1) as [o2 w2 t2]. cbn in H2 |- *. subst o2.
  destruct (Files_delete_file_by_id fid w2) as [[b|e] w3]; cbn; f_equal;
    now rewrite <- ?app_assoc.
Qed.
End cascade.


Section cascade_claims.
Context `{Collaborators W}.





End cascade_claims.






(** ** Selecting the oldest files *)

Section sorting.
Context {A : Type} (key : A -> Z).

Lemma insert_by_Permutation x l : insert_by key x l ≡ₚ x :: l.
Proof.
  induction l as [|y l IH]; cbn; [reflexivity|].
  destruct (key x <=? key y); [reflexivity|].
  rewrite IH. apply Permutation_swap.
Qed.

Lemma sorted_Permutation l : sorted key l ≡ₚ l.
Proof.
  induction l as [|x l IH]; cbn; [reflexivity|].
  rewrite insert_by_Permutation. now rewrite IH.
Qed.

Lemma insert_by_StronglySorted x l :
  StronglySorted (ascending key) l -> StronglySorted (ascending key) (insert_by key x l).
Proof.
  induction 1 as [|y l Hl IH Hy]; cbn; [repeat constructor|].
  destruct (key x <=? key y) eqn:Hxy.
  - apply Z.leb_le in Hxy. constructor; [now constructor|].
    constructor; [exact Hxy|].
    eapply Forall_impl; [exact Hy|]. unfold ascending. intros z Hz. lia.
  - apply Z.leb_gt in Hxy. constructor; [exact IH|].
    rewrite insert_by_Permutation. constructor; [|exact Hy].
    unfold ascending. lia.
Qed.

Lemma sorted_StronglySorted l : StronglySorted (ascending key) (sorted key l).
Proof.
  induction l as [|x l IH]; cbn; [constructor|].
  now apply insert_by_StronglySorted.
Qed.

Lemma sorted_length l : length (sorted key l) = length l.
Proof. apply Permutation_length, sorted_Permutation. Qed.
End sorting.

Section oldest_files.
Context `{Collaborators W}.

Lemma get_oldest_files_run self limit (w : W) :
  get_oldest_files self limit w =
    match Files_get_files w with
    | (Ok files, w') =>
        Run (Ok (file_record <$> py_slice_to limit (sorted created_at files)))
            w' [Called GetFiles true]
    | (Raise e, w') =>
        Run (Ok []) w' [Called GetFiles false; Logged ERROR (MsgOldestFilesError e)]
    end.
Proof.
  unfold get_oldest_files, try_except, mbind, M_bind, bind, invoke, log.
  destruct (Files_get_files w) as [[files|e] w']; cbn; [|reflexivity].
  destruct files; [|reflexivity].
  cbn. unfold py_slice_to. now destruct (0 <=? limit); rewrite take_nil.
Qed.

(** C5, as the code has it. For [0 <= limit], [get_oldest_files] never
    raises. When the catalog is read it returns the first
    [min limit (number of files)] records of the catalog sorted ascending
    by [created_at]: all of them when there are fewer than [limit], none
    when the catalog is empty. When the read fails it logs the error and
    returns the empty list. *)
Theorem get_oldest_files_oldest_first self limit (w : W) :
  0 <= limit ->
  match (Files_get_files w).1 with
  | Ok files =>
      exists oldest rest,
        out (get_oldest_files self limit w) = Ok (file_record <$> oldest)
        /\ oldest ++ rest ≡ₚ files
        /\ StronglySorted older (oldest ++ rest)
        /\ length oldest = Nat.min (Z.to_nat limit) (length files)
  | Raise e =>
      out (get_oldest_files self limit w) = Ok []
      /\ Logged ERROR (MsgOldestFilesError e) ∈ trace (get_oldest_files self limit w)
  end.
Proof.
  intros Hlimit. rewrite get_oldest_files_run.
  destruct (Files_get_files w) as [[files|e] w']; cbn.
  - exists (take (Z.to_nat limit) (sorted created_at files)),
           (drop (Z.to_nat limit) (sorted created_at files)).
    unfold py_slice_to. apply Z.leb_le in Hlimit. rewrite Hlimit.
    rewrite take_drop. repeat split.
    + apply sorted_Permutation.
    + apply sorted_StronglySorted.
    + now rewrite length_take, sorted_length.
  - split; [reflexivity|]. set_solver.
Qed.

(** C10. For [limit <= 0] and a catalog that is read, [get_oldest_files]
    returns normally: the empty list for [limit = 0], and for [limit < 0]
    the records sorted ascending by [created_at] without the [-limit]
    newest. *)
Theorem get_oldest_files_nonpositive_limit self limit (w : W) files w' :
  limit <= 0 ->
  Files_get_files w = (Ok files, w') ->
  exists kept newest,
    kept ++ newest ≡ₚ files
    /\ StronglySorted older (kept ++ newest)
    /\ length newest = Nat.min (Z.to_nat (- limit)) (length files)
    /\ out (get_oldest_files self limit w)
       = Ok (if limit =? 0 then [] else file_record <$> kept).
Proof.
  intros Hlimit Hfiles. rewrite get_oldest_files_run, Hfiles. cbn.
  set (k := Z.to_nat (Z.of_nat (length (sorted created_at files)) + limit)).
  exists (take k (sorted created_at files)), (drop k (sorted created_at files)).
  rewrite take_drop. repeat split.
  - apply sorted_Permutation.
  - apply sorted_StronglySorted.
  - rewrite length_drop. subst k. rewrite sorted_length. lia.
  - unfold py_slice_to. destruct (limit =? 0) eqn:H0.
    + apply Z.eqb_eq in H0 as ->. reflexivity.
    + apply Z.eqb_neq in H0.
      destruct (0 <=? limit) eqn:Hle; [apply Z.leb_le in Hle; lia|].
      reflexivity.
Qed.
End oldest_files.

(** C5 as stated fails: with one record in the catalog and a limit of 2 the
    record is returned, not the empty list. *)
Lemma get_oldest_files_fewer_than_limit :
  (length [file_b] < 2)%nat
  /\ out (@get_oldest_files _ (scripted (calm 85)) memory_manager 2 [file_b])
     = Ok [file_record file_b]
  /\ out (@get_oldest_files _ (scripted (calm 85)) memory_manager 2 [file_b])
     <> Ok [].
Proof. split; [cbn; lia|]. split; [reflexivity|]. discriminate. Qed.

(** ** Pressure readings and the trigger *)



(** ** Rounding *)

Lemma pow2_pos e : (0 < pow2 e)%Q.
Proof.
  destruct e as [|p|p]; cbn; try reflexivity.
  change 0%Q with (inject_Z 0). rewrite <- Zlt_Qlt. lia.
Qed.

Lemma pow2_opp e : (pow2 e * pow2 (- e) == 1)%Q.
Proof.
  destruct e as [|p|p]; [reflexivity|..].
  - change (- Z.pos p) with (Z.neg p). unfold pow2, Qeq, Qmult, inject_Z.
    cbn [Qnum Qden]. rewrite Pos.mul_1_l, Pos2Z.inj_pow. lia.
  - change (- Z.neg p) with (Z.pos p). unfold pow2, Qeq, Qmult, inject_Z.
    cbn [Qnum Qden]. rewrite Pos.mul_1_r, Pos2Z.inj_pow. lia.
Qed.

Lemma pow2_int e : 0 <= e -> pow2 e = inject_Z (2 ^ e).
Proof. now destruct e as [|p|p]. Qed.

Lemma round_half_even_nonneg s : (0 <= s)%Q -> 0 <= round_half_even s.
Proof.
  intros Hs. unfold round_half_even.
  assert (0 <= Qfloor s).
  { change 0 with (Qfloor 0). now apply Qfloor_resp_le. }
  destruct (_ ?= _)%Q; [destruct (Z.even _)|..]; lia.
Qed.

Lemma round_half_even_le s N : (s <= inject_Z N)%Q -> round_half_even s <= N.
Proof.
  intros Hs. unfold round_half_even.
  pose proof (Qfloor_le s) as Hfloor.
  assert (Qfloor s <= N) as Hf.
  { rewrite <- (Qfloor_Z N). now apply Qfloor_resp_le. }
  assert ((0 < s - inject_Z (Qfloor s))%Q -> Qfloor s + 1 <= N) as Hup.
  { intros Hr. assert (inject_Z (Qfloor s) < inject_Z N)%Q as Hlt by lra.
    rewrite <- Zlt_Qlt in Hlt. lia. }
  destruct (_ ?= _)%Q eqn:Hcmp.
  - apply Qeq_alt in Hcmp. destruct (Z.even _); [exact Hf|]. apply Hup. lra.
  - exact Hf.
  - apply Qgt_alt in Hcmp. apply Hup. lra.
Qed.

Lemma ilog2_unit a : (0 < a)%Q -> (a <= 1)%Q -> ilog2 a <= 0.
Proof.
  intros Hpos Hle. unfold ilog2.
  assert (Z.log2 (Qnum a) <= Z.log2 (Z.pos (Qden a))).
  { apply Z.log2_le_mono. unfold Qle in Hle. cbn in Hle. lia. }
  destruct (Qle_bool _ _); lia.
Qed.

(** Rounding keeps a fraction a fraction. *)
Lemma round64_unit x : (0 <= x <= 1)%Q -> (0 <= round64 x <= 1)%Q.
Proof.
  intros [H0 H1]. unfold round64.
  destruct (Qeq_bool x 0) eqn:Hz; [lra|].
  apply Qeq_bool_neq in Hz.
  assert (Qle_bool 0 x = true) as -> by now apply Qle_bool_iff.
  assert (Qabs x == x)%Q as Habs by now apply Qabs_pos.
  assert (0 < Qabs x)%Q as Hpos by (rewrite Habs; lra).
  assert (Qabs x <= 1)%Q as Hle by now rewrite Habs.
  pose proof (ilog2_unit (Qabs x) Hpos Hle) as Hlog.
  set (e := Z.max (-1074) (ilog2 (Qabs x) - 52)).
  assert (0 <= - e) as He by lia.
  set (m := round_half_even (Qabs x * pow2 (- e))).
  pose proof (pow2_pos e) as Hpe. pose proof (pow2_pos (- e)) as Hpne.
  pose proof (pow2_opp e) as Hopp.
  assert (0 <= m) as Hm0.
  { apply round_half_even_nonneg. apply Qmult_le_0_compat; lra. }
  assert (m <= 2 ^ (- e)) as Hm1.
  { apply round_half_even_le. rewrite <- (pow2_int _ He).
    rewrite <- (Qmult_1_l (pow2 (- e))) at 2.
    apply Qmult_le_compat_r; lra. }
  assert (0 <= inject_Z m)%Q as Hq0
    by (change 0%Q with (inject_Z 0); now rewrite <- Zle_Qle).
  assert (inject_Z m <= pow2 (- e))%Q as Hq1
    by (rewrite (pow2_int _ He); now rewrite <- Zle_Qle).
  split.
  - apply Qmult_le_0_compat; lra.
  - rewrite <- Hopp, (Qmult_comm (pow2 e)). apply Qmult_le_compat_r; lra.
Qed.

Lemma Qgtb_lt a b : Qgtb a b = true <-> (b < a)%Q.
Proof.
  unfold Qgtb. rewrite negb_true_iff, <- not_true_iff_false, Qle_bool_iff.
  split; [apply Qnot_le_lt | apply Qlt_not_le].
Qed.

Lemma Qgtb_le a b : Qgtb a b = false <-> (a <= b)%Q.
Proof. unfold Qgtb. now rewrite negb_false_iff, Qle_bool_iff. Qed.

(** [round64] and the operations built on it, against the binary64
    arithmetic of the kernel: literals, the reading of [get_memory_usage],
    the count of [cleanup_count], a quotient of integers, ties and
    subnormal numbers. *)
Module binary64_checks.
Import PrimFloat.

Example literal_0_70 : (literal 0.70 == F2Q 0x1.6666666666666p-1)%Q.
Proof. vm_compute. reflexivity. Qed.

Example reading_of_57_percent :
  (float_mul (float_div 57 100) 100 == F2Q (57 / 100 * 100))%Q
  /\ (float_mul (float_div 57 100) 100 < 57)%Q.
Proof. split; vm_compute; reflexivity. Qed.

Example reading_of_0_9_percent :
  (float_mul (float_div (literal 0.9) 100) 100
   == F2Q (0x1.ccccccccccccdp-1 / 100 * 100))%Q
  /\ (literal 0.9 < float_mul (float_div (literal 0.9) 100) 100)%Q.
Proof. split; vm_compute; reflexivity. Qed.

Example count_at_57_percent_over_56 :
  cleanup_count {| memory_threshold := 56 |}
    (float_mul (float_div 57 100) 100) (int_truediv 15 100) = 19
  /\ F2Q ((57 / 100 * 100 - 56) * 20)
     == float_mul (float_sub (float_mul (float_div 57 100) 100) 56) 20.
Proof. split; vm_compute; reflexivity. Qed.

Example count_at_1_4_over_0_7 :
  cleanup_count {| memory_threshold := literal 0.7 |}
    (literal 1.4) (int_truediv 15 100) = 14
  /\ Qfloor ((literal 1.4 - literal 0.7) * 20) = 13
  /\ F2Q ((0x1.6666666666666p0 - 0x1.6666666666666p-1) * 20)
     == float_mul (float_sub (literal 1.4) (literal 0.7)) 20.
Proof. repeat split; vm_compute; reflexivity. Qed.

Example quotient_of_integers :
  (int_truediv 1 3 == F2Q (1 / 3))%Q /\ (int_truediv 15 100 == F2Q (15 / 100))%Q.
Proof. split; vm_compute; reflexivity. Qed.

Example difference_of_literals :
  (float_sub (literal 0.1) (literal 0.3)
   == F2Q (0x1.999999999999ap-4 - 0x1.3333333333333p-2))%Q.
Proof. vm_compute. reflexivity. Qed.

Example quotient_near_two :
  (float_div (F2Q 0x1.fffffffffffffp0) (F2Q 0x1.0000000000001p0)
   == F2Q (0x1.fffffffffffffp0 / 0x1.0000000000001p0))%Q.
Proof. vm_compute. reflexivity. Qed.

Example subnormal_ties :
  (float_mul (F2Q 0x1p-1000) (F2Q 0x1.8p-74) == F2Q (0x1p-1000 * 0x1.8p-74))%Q
  /\ (float_mul (F2Q 0x1p-1000) (F2Q 0x1.8p-75) == F2Q (0x1p-1000 * 0x1.8p-75))%Q
  /\ (float_mul (F2Q 0x1p-1000) (F2Q 0x1p-75) == 0)%Q.
Proof. repeat split; vm_compute; reflexivity. Qed.

End binary64_checks.


Section pressure.
Context `{Collaborators W}.

Lemma get_memory_usage_run self (w : W) :
  get_memory_usage self w =
    match psutil_virtual_memory w with
    | (Ok vm, w') =>
        Run (Ok (float_mul (float_div (percent vm) 100) 100)) w'
            [Called VirtualMemory true]
    | (Raise e, w') => Run (Raise e) w' [Called VirtualMemory false]
    end.
Proof.
  unfold get_memory_usage, mbind, M_bind, bind, invoke.
  now destruct (psutil_virtual_memory w) as [[vm|e] w'].
Qed.

Lemma get_cache_usage_run self (w : W) :
  get_cache_usage self w =
    match psutil_virtual_memory w with
    | (Ok vm, w') =>
        Run (if total vm =? 0 then Raise ZeroDivisionError
             else Ok (int_truediv (cached vm + buffers vm) (total vm)))
            w' [Called VirtualMemory true]
    | (Raise e, w') => Run (Raise e) w' [Called VirtualMemory false]
    end.
Proof.
  unfold get_cache_usage, mbind, M_bind, bind, invoke.
  destruct (psutil_virtual_memory w) as [[vm|e] w']; cbn; [|reflexivity].
  now destruct (total vm =? 0).
Qed.

Lemma get_memory_usage_emits self : emits reading_step (get_memory_usage self : M W Q).
Proof. unfold get_memory_usage. walk. Qed.

Lemma get_cache_usage_emits self : emits reading_step (get_cache_usage self : M W Q).
Proof. unfold get_cache_usage. walk. Qed.

(** [get_cache_usage] is a fraction when the cache and the buffers are
    part of a non-empty total. *)
Lemma get_cache_usage_is_fraction self (w : W) vm w' :
  psutil_virtual_memory w = (Ok vm, w') ->
  0 <= cached vm -> 0 <= buffers vm -> cached vm + buffers vm <= total vm ->
  0 < total vm ->
  exists q, out (get_cache_usage self w) = Ok q /\ (0 <= q <= 1)%Q.
Proof.
  intros Hvm Hc Hb Hle Htotal. rewrite get_cache_usage_run, Hvm. cbn.
  destruct (total vm =? 0) eqn:H0; [apply Z.eqb_eq in H0; lia|].
  eexists. split; [reflexivity|].
  assert (0 < inject_Z (total vm))%Q as Hpos
    by (change 0%Q with (inject_Z 0); now rewrite <- Zlt_Qlt).
  assert (0 <= inject_Z (cached vm + buffers vm))%Q as Hnum
    by (change 0%Q with (inject_Z 0); rewrite <- Zle_Qle; lia).
  assert (inject_Z (cached vm + buffers vm) <= inject_Z (total vm))%Q as Hfrac
    by now rewrite <- Zle_Qle.
  apply round64_unit. split.
  - apply Qle_shift_div_l; [exact Hpos|]. lra.
  - apply Qle_shift_div_r; [exact Hpos|]. lra.
Qed.

Lemma deletions_none (P : event -> Prop) t :
  (forall c b, P (Called c b) -> is_delete c = false) ->
  Forall P t -> deletions t = [].
Proof.
  intros HP. unfold deletions, calls.
  induction 1 as [|e t He _ IH]; [reflexivity|].
  destruct e as [c b|]; [|exact IH].
  change (filter is_delete (c :: calls t) = []).
  rewrite filter_cons_False; [exact IH|].
  rewrite (HP c b He). intros [].
Qed.

Lemma deletions_app t1 t2 : deletions (t1 ++ t2) = deletions t1 ++ deletions t2.
Proof. unfold deletions, calls. now rewrite omap_app, filter_app. Qed.

(** The guard as it is written, on what the two getters return: when
    neither value is greater than the threshold (a value equal to it
    included), [check_and_cleanup_memory] returns [None] and no call of its
    trace deletes from a store. The value [get_memory_usage] returns is not
    the fraction of memory in use: see [half_used_memory_is_reclaimed]. *)
Lemma readings_below_threshold_nothing_to_do self (w : W) memory cache :
  out (get_memory_usage self w) = Ok memory ->
  out (get_cache_usage self (world (get_memory_usage self w))) = Ok cache ->
  (memory <= memory_threshold self)%Q ->
  (cache <= memory_threshold self)%Q ->
  out (check_and_cleanup_memory self w) = Ok None
  /\ deletions (trace (check_and_cleanup_memory self w)) = [].
Proof.
  intros Hmem Hcache Hm Hc.
  apply Qgtb_le in Hm, Hc.
  pose proof (get_memory_usage_emits self w) as E0.
  pose proof (get_cache_usage_emits self (world (get_memory_usage self w))) as E1.
  unfold check_and_cleanup_memory, mbind, M_bind, bind, log.
  destruct (get_memory_usage self w) as [o0 w0 t0].
  cbn [out world trace] in Hmem, Hcache, E0, E1 |- *. subst o0.
  destruct (get_cache_usage self w0) as [o1 w1 t1].
  cbn [out world trace] in Hcache, E1 |- *. subst o1.
  rewrite Hm, Hc. cbn -[deletions]. split; [reflexivity|].
  rewrite ?app_nil_r, !deletions_app.
  rewrite !(deletions_none reading_step); try assumption; try reflexivity;
    try (intros [] b; cbn; tauto).
  repeat constructor.
Qed.

End pressure.

(** ** What surfaces to the caller *)

Lemma returns_bind_yields {W A B} (Q : A -> Prop) (m : M W A) (f : A -> M W B) :
  yields Q m -> (forall a, Q a -> returns (f a)) -> returns (m ≫= f).
Proof.
  intros Hm Hf w. destruct (Hm w) as (a & Ha & HQ).
  destruct (Hf a HQ (world (m w))) as [b Hb].
  exists b. now rewrite (bind_Ok _ _ _ _ Ha).
Qed.

Lemma file_record_has_id_and_filename file : has_id_and_filename (file_record file).
Proof. split; eexists; reflexivity. Qed.

Section surfacing.
Context `{Collaborators W}.

Lemma sleep_returns seconds : returns (sleep seconds : M W unit).
Proof. intros w. now exists tt. Qed.

Lemma get_oldest_files_yields self limit :
  yields (Forall has_id_and_filename) (get_oldest_files self limit : M W _).
Proof.
  intros w. rewrite get_oldest_files_run.
  destruct (Files_get_files w) as [[files|e] w']; eexists; (split; [reflexivity|]).
  - apply Forall_fmap, Forall_true. intros f. apply file_record_has_id_and_filename.
  - constructor.
Qed.

Lemma cleanup_file_and_vectors_returns self r :
  returns (cleanup_file_and_vectors self r : M W bool).
Proof. unfold cleanup_file_and_vectors. walk. Qed.

Lemma cleanup_each_returns self oldest_files cleaned_files :
  Forall has_id_and_filename oldest_files ->
  returns (cleanup_each self oldest_files cleaned_files : M W Z).
Proof.
  intros Hall. revert cleaned_files.
  induction Hall as [|r rest [_ [fname Hfn]] _ IH]; intros cleaned_files; cbn.
  - apply returns_mret.
  - apply returns_bind; [apply cleanup_file_and_vectors_returns|].
    intros cleaned. unfold getitem. rewrite Hfn.
    destruct cleaned; walk; intros; apply IH.
Qed.

Lemma cleanup_cache_memory_returns self : returns (cleanup_cache_memory self : M W unit).
Proof. unfold cleanup_cache_memory. walk. Qed.

(** A failed measurement leaves the readers and the entry point as it is
    raised. *)
Lemma measurement_failure_surfaces self (w : W) e w' :
  psutil_virtual_memory w = (Raise e, w') ->
  out (get_memory_usage self w) = Raise e
  /\ out (get_cache_usage self w) = Raise e
  /\ out (check_and_cleanup_memory self w) = Raise e.
Proof.
  intros Hvm. repeat split.
  - now rewrite get_memory_usage_run, Hvm.
  - now rewrite get_cache_usage_run, Hvm.
  - unfold check_and_cleanup_memory. rewrite (bind_Raise _ _ _ e); [reflexivity|].
    now rewrite get_memory_usage_run, Hvm.
Qed.

Section measured.
Hypothesis measured :
  forall w : W, exists vm w', psutil_virtual_memory w = (Ok vm, w') /\ total vm <> 0.

Lemma get_memory_usage_returns self : returns (get_memory_usage self : M W Q).
Proof.
  intros w. rewrite get_memory_usage_run.
  destruct (measured w) as (vm & w' & -> & _). eauto.
Qed.

Lemma get_cache_usage_returns self : returns (get_cache_usage self : M W Q).
Proof.
  intros w. rewrite get_cache_usage_run.
  destruct (measured w) as (vm & w' & -> & Htotal).
  apply Z.eqb_neq in Htotal. rewrite Htotal. eauto.
Qed.

Lemma perform_memory_cleanup_returns self cleanup_count :
  returns (perform_memory_cleanup self cleanup_count : M W report).
Proof.
  unfold perform_memory_cleanup.
  apply returns_bind; [apply get_memory_usage_returns|]. intros start_memory.
  apply returns_bind; [apply get_cache_usage_returns|]. intros start_cache.
  apply returns_bind; [apply returns_log|]. intros _.
  apply (returns_bind_yields _ _ _ (get_oldest_files_yields self cleanup_count)).
  intros [|r rest] Hall; [walk|].
  apply returns_bind; [now apply cleanup_each_returns|]. intros cleaned.
  apply returns_bind; [apply cleanup_cache_memory_returns|]. intros _.
  apply returns_bind; [apply sleep_returns|]. intros _.
  apply returns_bind; [apply get_memory_usage_returns|]. intros end_memory.
  apply returns_bind; [apply get_cache_usage_returns|]. intros end_cache.
  walk.
Qed.

Lemma check_and_cleanup_memory_returns self :
  returns (check_and_cleanup_memory self : M W (option report)).
Proof.
  unfold check_and_cleanup_memory.
  apply returns_bind; [apply get_memory_usage_returns|]. intros current_memory.
  apply returns_bind; [apply get_cache_usage_returns|]. intros current_cache.
  apply returns_bind; [apply returns_log|]. intros _.
  destruct (_ || _); [|apply returns_mret].
  apply returns_bind; [apply returns_log|]. intros _.
  apply returns_bind; [apply perform_memory_cleanup_returns|]. intros r.
  apply returns_mret.
Qed.
End measured.

(** C7, as the code has it. A failed measurement leaves
    [get_memory_usage], [get_cache_usage] and [check_and_cleanup_memory] as
    the exception that was raised. When every measurement succeeds, with a
    total that is not zero, [check_and_cleanup_memory] returns, whatever the
    catalog, the vector index, the blob store, [gc] and [sync] do. *)
Theorem only_measurement_failures_surface self :
  (forall (w : W) e w',
      psutil_virtual_memory w = (Raise e, w') ->
      out (get_memory_usage self w) = Raise e
      /\ out (get_cache_usage self w) = Raise e
      /\ out (check_and_cleanup_memory self w) = Raise e)
  /\ ((forall w : W, exists vm w',
          psutil_virtual_memory w = (Ok vm, w') /\ total vm <> 0) ->
      forall w : W, exists r, out (check_and_cleanup_memory self w) = Ok r).
Proof.
  split.
  - apply measurement_failure_surfaces.
  - intros measured. now apply check_and_cleanup_memory_returns.
Qed.
End surfacing.

(** ** The sampler *)

Section sampler.
Context `{Collaborators W}.

(** The body of the [try] raises only through one of its three
    measurements, and then before it sleeps. *)
Lemma sample_once_failure self (w : W) e :
  out (sample_once self w) = Raise e ->
  Forall sampling_step (trace (sample_once self w))
  /\ exists c, c ∈ [ProcessRss; ActiveCount; TimeTime]
               /\ Called c false ∈ trace (sample_once self w).
Proof.
  unfold sample_once, sleep, mbind, M_bind, bind, invoke, log.
  destruct (psutil_Process_rss w) as [[rss|e1] w1]; cbn.
  2: { intros _. split; [repeat constructor|]. exists ProcessRss. set_solver. }
  destruct (threading_active_count w1) as [[n|e2] w2]; cbn.
  2: { intros _. split; [repeat constructor|]. exists ActiveCount. set_solver. }
  destruct (Qgtb _ 1000), (15 <? n); cbn;
    (destruct (time_time w2) as [[now|e3] w3]; cbn; [discriminate|]);
    intros _; (split; [repeat constructor|]); exists TimeTime; set_solver.
Qed.

End sampler.


(** ** The memory reading *)

(** C1 fails on [get_memory_usage]: with 50 percent of the memory in use it
    returns 50, which is not a fraction between 0 and 1. *)
Theorem memory_reading_is_not_a_fraction :
  exists q,
    out (@get_memory_usage _ (scripted (calm 50)) memory_manager []) = Ok q
    /\ (q == 50)%Q /\ ~ (q <= 1)%Q.
Proof.
  eexists. split; [reflexivity|]. split; [reflexivity|].
  apply Qlt_not_le. reflexivity.
Qed.

(** ** The claims on the example worlds *)


(** C4 fails on the code: with half of the memory in use and 15 percent of
    it in caches and buffers, neither fraction is above the threshold of
    0.70, and [check_and_cleanup_memory] runs a cleanup pass that deletes
    every file of the catalog. [get_memory_usage] hands it 50, not 0.5. *)
Theorem half_used_memory_is_reclaimed :
  let C := scripted (calm 50) in
  let w := [file_a; file_b; file_c] in
  let threshold := memory_threshold memory_manager in
  (percent (vm_of 50) / 100 == 1 # 2)%Q
  /\ (percent (vm_of 50) / 100 <= threshold)%Q
  /\ (inject_Z (cached (vm_of 50) + buffers (vm_of 50))
        / inject_Z (total (vm_of 50)) <= threshold)%Q
  /\ exists rep,
       out (@check_and_cleanup_memory _ C memory_manager w) = Ok (Some rep)
       /\ cleaned_files rep = 3
       /\ length (deletions (trace (@check_and_cleanup_memory _ C memory_manager w)))
          = 7%nat
       /\ world (@check_and_cleanup_memory _ C memory_manager w) = [].
Proof.
  intros C w threshold.
  split; [vm_compute; reflexivity|]. split; [vm_compute; discriminate|].
  split; [vm_compute; discriminate|].
  eexists. split; [vm_compute; reflexivity|].
  split; [reflexivity|]. split; vm_compute; reflexivity.
Qed.

Lemma get_oldest_files_oldest_first_witness :
  0 <= 2
  /\ exists oldest rest,
       out (@get_oldest_files _ (scripted (calm 0.85)) memory_manager 2
              [file_a; file_b; file_c])
       = Ok (file_record <$> oldest)
       /\ oldest ++ rest ≡ₚ [file_a; file_b; file_c]
       /\ StronglySorted older (oldest ++ rest)
       /\ length oldest = Nat.min (Z.to_nat 2) (length [file_a; file_b; file_c]).
Proof.
  split; [lia|].
  apply (@get_oldest_files_oldest_first _ (scripted (calm 0.85)) memory_manager 2
           [file_a; file_b; file_c]).
  lia.
Defined.

Lemma get_oldest_files_nonpositive_limit_witness :
  -1 <= 0
  /\ exists kept newest,
       kept ++ newest ≡ₚ [file_a; file_b; file_c]
       /\ StronglySorted older (kept ++ newest)
       /\ length newest = Nat.min (Z.to_nat (- -1)) (length [file_a; file_b; file_c])
       /\ out (@get_oldest_files _ (scripted (calm 0.85)) memory_manager (-1)
                 [file_a; file_b; file_c])
          = Ok (if -1 =? 0 then [] else file_record <$> kept).
Proof.
  split; [lia|].
  apply (@get_oldest_files_nonpositive_limit _ (scripted (calm 0.85)) memory_manager
           (-1) [file_a; file_b; file_c] [file_a; file_b; file_c]
           [file_a; file_b; file_c]);
    [lia | reflexivity].
Defined.

(** C7 as stated fails: when [psutil.virtual_memory()] raises, the exception
    leaves [get_memory_usage] and [check_and_cleanup_memory]. *)
Lemma measurement_failure_reaches_caller :
  out (@get_memory_usage _ (scripted blind) memory_manager [file_a])
  = Raise psutil_down
  /\ out (@check_and_cleanup_memory _ (scripted blind) memory_manager [file_a])
     = Raise psutil_down.
Proof. split; reflexivity. Qed.

Lemma only_measurement_failures_surface_witness :
  let C := scripted (dependents_down 0.85) in
  (forall w, exists vm w',
      @psutil_virtual_memory _ C w = (Ok vm, w') /\ total vm <> 0)
  /\ forall w, exists r, out (@check_and_cleanup_memory _ C memory_manager w) = Ok r.
Proof.
  intros C.
  assert (forall w, exists vm w',
             @psutil_virtual_memory _ C w = (Ok vm, w') /\ total vm <> 0) as Hm.
  { intros w. exists (vm_of 0.85), w. split; [reflexivity|discriminate]. }
  split; [exact Hm|].
  exact (proj2 (@only_measurement_failures_surface _ C memory_manager) Hm).
Defined.

(** * Further properties of the code *)

(** ** More on the cascade *)

Section cascade_more.
Context `{Collaborators W}.

(** The catalog deletions of a cascade, and its result. *)
Lemma cleanup_file_and_vectors_catalog self (rec : gmap string pyval) (w : W)
    fid fname :
  rec !! "id" = Some fid -> rec !! "filename" = Some fname ->
  exists ok : bool,
    catalog_deletes (trace (cleanup_file_and_vectors self rec w)) = [(fid, ok)]
    /\ out (cleanup_file_and_vectors self rec w) = Ok ok.
Proof.
  intros Hid Hfn.
  rewrite (cleanup_file_and_vectors_run self rec w fid fname Hid Hfn).
  cbn [trace out]. eexists. split; [|reflexivity].
  change (?x :: ?l) with ([x] ++ l) at 1.
  rewrite !catalog_deletes_app.
  rewrite (catalog_deletes_none vector_step (trace (remove_vectors _ _ _)));
    [| now intros | apply remove_vectors_emits].
  rewrite (catalog_deletes_none storage_step (trace (remove_physical_file _ _)));
    [| now intros | apply remove_physical_file_emits].
  cbn. now destruct (Files_delete_file_by_id _ _).1.
Qed.

(** A record without its [id] or its [filename]: the cascade stops at the
    [KeyError], which its handler turns into [False]; no store is called. *)
Theorem cleanup_file_and_vectors_missing_key self (rec : gmap string pyval) (w : W) :
  rec !! "id" = None \/ rec !! "filename" = None ->
  exists key,
    cleanup_file_and_vectors self rec w
    = Run (Ok false) w [Logged ERROR (MsgCleanupError (KeyError key))]
    /\ (key = "id" \/ key = "filename").
Proof.
  intros Hmissing.
  unfold cleanup_file_and_vectors, getitem, try_except, mbind, M_bind, bind.
  destruct (rec !! "id") as [fid|] eqn:Hid.
  - destruct Hmissing as [|Hfn]; [discriminate|]. rewrite Hfn. cbn.
    exists "filename". split; [reflexivity | now right].
  - cbn. exists "id". split; [reflexivity | now left].
Qed.

(** A record with neither a collection nor a path: the catalog deletion is
    the only call of its cascade. *)
Theorem cleanup_file_and_vectors_metadata_only self (rec : gmap string pyval)
    (w : W) fid fname :
  rec !! "id" = Some fid -> rec !! "filename" = Some fname ->
  truthy (dict_get rec "collection_name") = false ->
  truthy (dict_get rec "path") = false ->
  calls (trace (cleanup_file_and_vectors self rec w)) = [DeleteFileById fid]
  /\ out (cleanup_file_and_vectors self rec w)
     = Ok (is_ok (Files_delete_file_by_id fid w).1).
Proof.
  intros Hid Hfn Hc Hp.
  rewrite (cleanup_file_and_vectors_run self rec w fid fname Hid Hfn).
  unfold remove_vectors, remove_physical_file. rewrite Hc, Hp. cbn.
  split; [|reflexivity].
  unfold calls. cbn. now destruct (Files_delete_file_by_id fid w).1.
Qed.


(** The catalog deletion is the last call of a cascade: whatever is deleted
    from the vector index and the blob store is deleted before the catalog
    row. *)
Theorem catalog_delete_is_last_call self (rec : gmap string pyval) (w : W)
    fid fname :
  rec !! "id" = Some fid -> rec !! "filename" = Some fname ->
  exists before,
    calls (trace (cleanup_file_and_vectors self rec w))
    = before ++ [DeleteFileById fid]
    /\ Forall (fun c => is_vector_call c = true \/ exists p, c = StorageDeleteFile p)
         before.
Proof.
  intros Hid Hfn.
  rewrite (cleanup_file_and_vectors_run self rec w fid fname Hid Hfn).
  cbn [trace].
  set (r1 := remove_vectors (dict_get rec "collection_name") fid w).
  set (r2 := remove_physical_file (dict_get rec "path") (world r1)).
  exists (calls (trace r1) ++ calls (trace r2)). split.
  - change (?x :: ?l ++ ?l') with ([x] ++ l ++ l').
    rewrite !calls_app, <- app_assoc. cbn.
    now destruct (Files_delete_file_by_id _ _).1.
  - apply Forall_app. split.
    + pose proof (remove_vectors_emits (dict_get rec "collection_name") fid w) as E.
      fold r1 in E. unfold calls. induction E as [|e t He _ IH]; [constructor|].
      destruct e as [c b|]; [|exact IH]. cbn. constructor; [|exact IH].
      left. now destruct c.
    + pose proof (remove_physical_file_emits (dict_get rec "path") (world r1)) as E.
      fold r2 in E. unfold calls. induction E as [|e t He _ IH]; [constructor|].
      destruct e as [c b|]; [|exact IH]. cbn. constructor; [|exact IH].
      right. destruct c; try now destruct He. eauto.
Qed.

End cascade_more.

(** ** The batch *)

Lemma successes_cons fid (ok : bool) ds :
  successes ((fid, ok) :: ds) = (if ok then 1 else 0) + successes ds.
Proof.
  unfold successes. rewrite filter_cons. cbn [snd].
  destruct ok; cbn -[Z.of_nat]; destruct (decide _) as [Ht|Hf]; cbn -[Z.of_nat];
    try lia; try (now destruct Ht); now destruct Hf.
Qed.

Lemma successes_bounds ds : 0 <= successes ds <= Z.of_nat (length ds).
Proof.
  unfold successes. pose proof (length_filter (fun d : pyval * bool => Is_true d.2) ds).
  lia.
Qed.

Lemma record_ids_cons (r : gmap string pyval) rest fid :
  r !! "id" = Some fid -> record_ids (r :: rest) = fid :: record_ids rest.
Proof. intros Hid. unfold record_ids. cbn. now rewrite Hid. Qed.

Lemma record_ids_length rs : (length (record_ids rs) <= length rs)%nat.
Proof.
  unfold record_ids. induction rs as [|r rs IH]; cbn; [lia|].
  destruct (r !! "id"); cbn; lia.
Qed.

Lemma calls_logged lvl msg t : calls (Logged lvl msg :: t) = calls t.
Proof. reflexivity. Qed.

Lemma catalog_deletes_kept t : Forall keeps_catalog t -> catalog_deletes t = [].
Proof. apply catalog_deletes_none. now intros. Qed.

Section batch.
Context `{Collaborators W}.

Lemma cleanup_each_run self oldest_files cleaned_files (w : W) :
  Forall has_id_and_filename oldest_files ->
  exists ds w' t,
    cleanup_each self oldest_files cleaned_files w
    = Run (Ok (cleaned_files + successes ds)) w' t
    /\ catalog_deletes t = ds
    /\ ds.*1 = record_ids oldest_files.
Proof.
  intros Hall. revert cleaned_files w.
  induction Hall as [|r rest [[fid Hid] [fname Hfn]] _ IH]; intros cleaned_files w.
  - exists [], w, []. change (successes []) with 0. rewrite Z.add_0_r.
    repeat split.
  - destruct (cleanup_file_and_vectors_catalog self r w fid fname Hid Hfn)
      as (ok & Hd & Ho).
    cbn [cleanup_each]. unfold mbind, M_bind, bind, getitem, log. rewrite Hfn.
    destruct (cleanup_file_and_vectors self r w) as [o1 w1 t1].
    cbn [out trace] in Hd, Ho. subst o1.
    rewrite (record_ids_cons r rest fid Hid).
    destruct ok.
    + destruct (IH (cleaned_files + 1) w1) as (ds & w2 & t2 & Hrun & Hds & Hfst).
      cbn -[cleanup_each]. rewrite Hrun.
      exists ((fid, true) :: ds), w2, (t1 ++ Logged INFO (MsgCleanedFile fname) :: t2).
      split; [do 2 f_equal; rewrite successes_cons; lia|].
      change (Logged INFO (MsgCleanedFile fname) :: t2)
        with ([Logged INFO (MsgCleanedFile fname)] ++ t2).
      rewrite !catalog_deletes_app, Hd, Hds. cbn [fmap list_fmap fst].
      now rewrite Hfst.
    + destruct (IH cleaned_files w1) as (ds & w2 & t2 & Hrun & Hds & Hfst).
      cbn -[cleanup_each]. rewrite Hrun.
      exists ((fid, false) :: ds), w2, (t1 ++ Logged ERROR (MsgFailedFile fname) :: t2).
      split; [do 2 f_equal; rewrite successes_cons; lia|].
      change (Logged ERROR (MsgFailedFile fname) :: t2)
        with ([Logged ERROR (MsgFailedFile fname)] ++ t2).
      rewrite !catalog_deletes_app, Hd, Hds. cbn [fmap list_fmap fst].
      now rewrite Hfst.
Qed.

(** A cascade that fails does not stop the batch: the loop attempts the
    catalog deletion of every record it is given, in the order given. *)
Theorem cleanup_each_attempts_every_record self oldest_files cleaned_files (w : W) :
  Forall has_id_and_filename oldest_files ->
  (catalog_deletes (trace (cleanup_each self oldest_files cleaned_files w))).*1
  = record_ids oldest_files.
Proof.
  intros Hall.
  destruct (cleanup_each_run self oldest_files cleaned_files w Hall)
    as (ds & w' & t & -> & <- & Hfst).
  exact Hfst.
Qed.

(** The loop counts exactly the cascades whose catalog deletion returned. *)
Theorem cleanup_each_counts_catalog_successes self oldest_files cleaned_files (w : W) :
  Forall has_id_and_filename oldest_files ->
  out (cleanup_each self oldest_files cleaned_files w)
  = Ok (cleaned_files
        + successes (catalog_deletes
                       (trace (cleanup_each self oldest_files cleaned_files w)))).
Proof.
  intros Hall.
  destruct (cleanup_each_run self oldest_files cleaned_files w Hall)
    as (ds & w' & t & -> & <- & _).
  reflexivity.
Qed.

End batch.

(** ** The cleanup pass *)

Lemma catalog_deletes_cons_kept e t :
  keeps_catalog e -> catalog_deletes (e :: t) = catalog_deletes t.
Proof. intros He. unfold catalog_deletes. now destruct e as [[] b|]. Qed.

Section pass.
Context `{Collaborators W}.

Lemma get_memory_usage_keeps_catalog self :
  emits keeps_catalog (get_memory_usage self : M W Q).
Proof. unfold get_memory_usage. walk. Qed.

Lemma get_cache_usage_keeps_catalog self :
  emits keeps_catalog (get_cache_usage self : M W Q).
Proof. unfold get_cache_usage. walk. Qed.

Lemma get_oldest_files_keeps_catalog self limit :
  emits keeps_catalog (get_oldest_files self limit : M W _).
Proof. unfold get_oldest_files. walk. Qed.

Lemma cleanup_cache_memory_keeps_catalog self :
  emits keeps_catalog (cleanup_cache_memory self : M W unit).
Proof. unfold cleanup_cache_memory. walk. Qed.

(** What a pass that returns has done to the catalog. *)
Lemma perform_memory_cleanup_audit self cleanup_count (w : W) rep :
  out (perform_memory_cleanup self cleanup_count w) = Ok rep ->
  exists oldest_files,
    out (get_oldest_files self cleanup_count
           (world (get_cache_usage self (world (get_memory_usage self w)))))
    = Ok oldest_files
    /\ (catalog_deletes (trace (perform_memory_cleanup self cleanup_count w))).*1
       = record_ids oldest_files
    /\ cleaned_files rep
       = successes (catalog_deletes
                      (trace (perform_memory_cleanup self cleanup_count w))).
Proof.
  pose proof (get_memory_usage_keeps_catalog self w) as E0.
  unfold perform_memory_cleanup, mbind, M_bind, bind, log.
  destruct (get_memory_usage self w) as [[m|e] w0 t0];
    cbn [out world trace] in *; [|discriminate].
  pose proof (get_cache_usage_keeps_catalog self w0) as E1.
  destruct (get_cache_usage self w0) as [[c|e] w1 t1];
    cbn [out world trace] in *; [|discriminate].
  pose proof (get_oldest_files_keeps_catalog self cleanup_count w1) as E2.
  destruct (get_oldest_files_yields self cleanup_count w1) as (recs & Hsel & Hwf).
  destruct (get_oldest_files self cleanup_count w1) as [o2 w2 t2].
  cbn [out world trace] in *. subst o2.
  destruct recs as [|r rest].
  - cbn [out world trace M_ret mret ret]. intros [= <-]. exists [].
    split; [reflexivity|].
    rewrite ?catalog_deletes_app, ?catalog_deletes_cons_kept by exact I.
    rewrite !catalog_deletes_kept by (assumption || constructor).
    split; reflexivity.
  - destruct (cleanup_each_run self (r :: rest) 0 w2 Hwf)
      as (ds & w3 & t3 & Hrun & Hds & Hfst).
    rewrite Hrun.
    pose proof (cleanup_cache_memory_keeps_catalog self w3) as E4.
    destruct (cleanup_cache_memory_returns self w3) as [[] Hc].
    destruct (cleanup_cache_memory self w3) as [o4 w4 t4].
    cbn [out world trace] in *. subst o4.
    unfold sleep, invoke. cbn [out world trace is_ok].
    pose proof (get_memory_usage_keeps_catalog self (time_sleep 2 w4)) as E5.
    destruct (get_memory_usage self (time_sleep 2 w4)) as [[m'|e] w5 t5];
      cbn [out world trace] in *; [|discriminate].
    pose proof (get_cache_usage_keeps_catalog self w5) as E6.
    destruct (get_cache_usage self w5) as [[c'|e] w6 t6];
      cbn [out world trace M_ret mret ret] in *; [|discriminate].
    intros [= <-]. exists (r :: rest). split; [reflexivity|].
    rewrite ?catalog_deletes_app, ?catalog_deletes_cons_kept by exact I.
    rewrite ?catalog_deletes_app, ?catalog_deletes_cons_kept by exact I.
    rewrite !(catalog_deletes_kept t0), !(catalog_deletes_kept t1),
      !(catalog_deletes_kept t2), !(catalog_deletes_kept t4),
      !(catalog_deletes_kept t5), !(catalog_deletes_kept t6) by assumption.
    rewrite Hds. cbn [app cleaned_files]. rewrite ?app_nil_r.
    change (catalog_deletes []) with (@nil (pyval * bool)). cbn [app].
    rewrite ?app_nil_r. split; [exact Hfst | lia].
Qed.

(** The report counts exactly the catalog deletions that returned during the
    pass. *)
Theorem report_counts_catalog_successes self cleanup_count (w : W) rep :
  out (perform_memory_cleanup self cleanup_count w) = Ok rep ->
  cleaned_files rep
  = successes (catalog_deletes (trace (perform_memory_cleanup self cleanup_count w))).
Proof.
  intros Hout.
  now destruct (perform_memory_cleanup_audit self cleanup_count w rep Hout)
    as (recs & _ & _ & Hcount).
Qed.

(** The pass deletes from the catalog the records [get_oldest_files] selected
    for it, all of them and no other, oldest first. *)
Theorem pass_deletes_the_selection self cleanup_count (w : W) rep :
  out (perform_memory_cleanup self cleanup_count w) = Ok rep ->
  exists oldest_files,
    out (get_oldest_files self cleanup_count
           (world (get_cache_usage self (world (get_memory_usage self w)))))
    = Ok oldest_files
    /\ (catalog_deletes (trace (perform_memory_cleanup self cleanup_count w))).*1
       = record_ids oldest_files.
Proof.
  intros Hout.
  destruct (perform_memory_cleanup_audit self cleanup_count w rep Hout)
    as (recs & Hsel & Hids & _).
  now exists recs.
Qed.

End pass.

Section pass_more.
Context `{Collaborators W}.

Lemma get_memory_usage_calls self (w : W) :
  calls (trace (get_memory_usage self w)) = [VirtualMemory].
Proof.
  rewrite get_memory_usage_run. now destruct (psutil_virtual_memory w) as [[vm|e] w'].
Qed.

Lemma get_cache_usage_calls self (w : W) :
  calls (trace (get_cache_usage self w)) = [VirtualMemory].
Proof.
  rewrite get_cache_usage_run. now destruct (psutil_virtual_memory w) as [[vm|e] w'].
Qed.

Lemma get_oldest_files_calls self limit (w : W) :
  calls (trace (get_oldest_files self limit w)) = [GetFiles].
Proof.
  rewrite get_oldest_files_run. now destruct (Files_get_files w) as [[files|e] w'].
Qed.

Lemma get_oldest_files_length self limit (w : W) oldest_files :
  0 <= limit ->
  out (get_oldest_files self limit w) = Ok oldest_files ->
  Z.of_nat (length oldest_files) <= limit.
Proof.
  intros Hlimit. rewrite get_oldest_files_run.
  destruct (Files_get_files w) as [[files|e] w']; cbn [out]; intros [= <-].
  - unfold py_slice_to. destruct (0 <=? limit) eqn:Hle; [|apply Z.leb_gt in Hle; lia].
    rewrite length_fmap, length_take. lia.
  - cbn. lia.
Qed.

(** [get_oldest_files] only reads: whatever the limit and whether the catalog
    answers or not, it returns, and its one call is [Files.get_files]. *)
Theorem get_oldest_files_only_reads self limit (w : W) :
  (exists oldest_files, out (get_oldest_files self limit w) = Ok oldest_files)
  /\ calls (trace (get_oldest_files self limit w)) = [GetFiles].
Proof.
  split; [|apply get_oldest_files_calls].
  destruct (get_oldest_files_yields self limit w) as (recs & Hout & _). eauto.
Qed.

(** A pass never counts more files than it was asked to clean. *)
Theorem report_within_cleanup_count self cleanup_count (w : W) rep :
  0 <= cleanup_count ->
  out (perform_memory_cleanup self cleanup_count w) = Ok rep ->
  0 <= cleaned_files rep <= cleanup_count.
Proof.
  intros Hcount Hout.
  destruct (perform_memory_cleanup_audit self cleanup_count w rep Hout)
    as (recs & Hsel & Hids & ->).
  pose proof (get_oldest_files_length self cleanup_count _ recs Hcount Hsel) as Hlen.
  pose proof (successes_bounds
                (catalog_deletes (trace (perform_memory_cleanup self cleanup_count w))))
    as Hb.
  assert (length (catalog_deletes (trace (perform_memory_cleanup self cleanup_count w)))
          <= length recs)%nat as Hle.
  { rewrite <- (length_fmap fst), Hids. apply record_ids_length. }
  lia.
Qed.

(** Nothing to evict: when the selection is empty, the pass makes its two
    readings and the catalog read and nothing else (no deletion, no flush,
    no sleep, no second reading), warns, and reports zero files with the
    readings unchanged. *)
Theorem nothing_to_evict self cleanup_count (w : W) memory cache :
  out (get_memory_usage self w) = Ok memory ->
  out (get_cache_usage self (world (get_memory_usage self w))) = Ok cache ->
  out (get_oldest_files self cleanup_count
         (world (get_cache_usage self (world (get_memory_usage self w))))) = Ok [] ->
  out (perform_memory_cleanup self cleanup_count w)
  = Ok {| cleaned_files := 0;
          memory_before := memory; memory_after := memory;
          cache_before := cache; cache_after := cache;
          freed_memory := 0 |}
  /\ calls (trace (perform_memory_cleanup self cleanup_count w))
     = [VirtualMemory; VirtualMemory; GetFiles]
  /\ Logged WARNING MsgNoFiles ∈ trace (perform_memory_cleanup self cleanup_count w).
Proof.
  intros Hmem Hcache Hsel.
  pose proof (get_memory_usage_calls self w) as C0.
  pose proof (get_cache_usage_calls self (world (get_memory_usage self w))) as C1.
  pose proof (get_oldest_files_calls self cleanup_count
                (world (get_cache_usage self (world (get_memory_usage self w))))) as C2.
  unfold perform_memory_cleanup, mbind, M_bind, bind, log.
  destruct (get_memory_usage self w) as [o0 w0 t0].
  cbn [out world trace] in *. subst o0.
  destruct (get_cache_usage self w0) as [o1 w1 t1].
  cbn [out world trace] in *. subst o1.
  destruct (get_oldest_files self cleanup_count w1) as [o2 w2 t2].
  cbn [out world trace M_ret mret ret] in *. subst o2.
  split; [reflexivity|]. split.
  - cbn [trace]. rewrite !calls_app, C0, C1, C2. reflexivity.
  - cbn [trace]. rewrite !elem_of_app, !elem_of_cons. tauto.
Qed.

(** [cleanup_cache_memory] never raises. A failure of [gc.collect()] is
    logged as an error and the flush is not attempted; a failure of the
    flush is logged at debug level only. *)
Theorem cleanup_cache_memory_outcomes self (w : W) :
  cleanup_cache_memory self w =
    match gc_collect w with
    | (Ok _, w1) =>
        match os_system_sync w1 with
        | (Ok _, w2) =>
            Run (Ok tt) w2
              [Called GcCollect true; Called OsSync true; Logged INFO MsgCacheFlushed]
        | (Raise e, w2) =>
            Run (Ok tt) w2
              [Called GcCollect true; Called OsSync false;
               Logged DEBUG (MsgCacheFlushError e)]
        end
    | (Raise e, w1) =>
        Run (Ok tt) w1 [Called GcCollect false; Logged ERROR (MsgCacheError e)]
    end.
Proof.
  unfold cleanup_cache_memory, try_except, mbind, M_bind, bind, invoke, log.
  destruct (gc_collect w) as [[[]|e] w1]; [|reflexivity].
  now destruct (os_system_sync w1) as [[[]|e] w2].
Qed.

End pass_more.

(** ** Ties in the selection *)

Section stability.
Context {A : Type} (key : A -> Z).

Lemma insert_by_filter x l t :
  filter (fun y => key y = t) (insert_by key x l)
  = filter (fun y => key y = t) (x :: l).
Proof.
  induction l as [|y l IH]; [reflexivity|]. cbn [insert_by].
  destruct (key x <=? key y) eqn:Hxy; [reflexivity|]. apply Z.leb_gt in Hxy.
  rewrite (filter_cons _ y), IH, !(filter_cons _ x), (filter_cons _ y).
  repeat case_decide; try reflexivity. lia.
Qed.

Lemma sorted_filter l t :
  filter (fun y => key y = t) (sorted key l) = filter (fun y => key y = t) l.
Proof.
  induction l as [|x l IH]; [reflexivity|]. cbn [sorted foldr].
  fold (sorted key l). rewrite insert_by_filter, !filter_cons, IH. reflexivity.
Qed.
End stability.

Section ties.
Context `{Collaborators W}.

(** Files created at the same time are selected in the order in which
    [Files.get_files()] lists them: the selection is a prefix of a list in
    which the files of every creation time appear as in the catalog. *)
Theorem get_oldest_files_keeps_catalog_order_on_ties self limit (w : W) files w' :
  0 <= limit ->
  Files_get_files w = (Ok files, w') ->
  exists oldest rest,
    out (get_oldest_files self limit w) = Ok (file_record <$> oldest)
    /\ length oldest = Nat.min (Z.to_nat limit) (length files)
    /\ forall t,
         filter (fun f => created_at f = t) (oldest ++ rest)
         = filter (fun f => created_at f = t) files.
Proof.
  intros Hlimit Hfiles. rewrite get_oldest_files_run, Hfiles. cbn [out].
  exists (take (Z.to_nat limit) (sorted created_at files)),
         (drop (Z.to_nat limit) (sorted created_at files)).
  unfold py_slice_to. apply Z.leb_le in Hlimit. rewrite Hlimit.
  split; [reflexivity|]. split.
  - now rewrite length_take, sorted_length.
  - intros t. rewrite take_drop. apply sorted_filter.
Qed.
End ties.

(** ** More on the sampler *)

Section sampler_more.
Context `{Collaborators W}.

(** A turn whose three measurements return: the sample replaces [stats],
    the turn sleeps 30 seconds, a warning is logged for the memory exactly
    when it is above 1000 MB and for the threads exactly when there are more
    than 15, and no error is logged. *)
Theorem measured_cycle_publishes self (w : W) rss w1 n w2 now w3 :
  psutil_Process_rss w = (Ok rss, w1) ->
  threading_active_count w1 = (Ok n, w2) ->
  time_time w2 = (Ok now, w3) ->
  let mb := (inject_Z rss / 1024 / 1024)%Q in
  let r := monitor_cycle self w in
  out r = Ok {| monitoring := monitoring self;
                stats := Some {| memory_mb := mb; thread_count := n;
                                 timestamp := now |} |}
  /\ sleeps (trace r) = [30]
  /\ (Logged WARNING (MsgHighMemory mb) ∈ trace r <-> (1000 < mb)%Q)
  /\ (Logged WARNING (MsgHighThreadCount n) ∈ trace r <-> 15 < n)
  /\ forall e, Logged ERROR (MsgMonitoringError e) ∉ trace r.
Proof.
  intros Hrss Hn Hnow mb r.
  assert (r = Run (Ok {| monitoring := monitoring self;
                         stats := Some {| memory_mb := mb; thread_count := n;
                                          timestamp := now |} |})
                  (time_sleep 30 w3)
                  ([Called ProcessRss true; Called ActiveCount true]
                     ++ (if Qgtb mb 1000 then [Logged WARNING (MsgHighMemory mb)]
                         else [])
                     ++ (if 15 <? n then [Logged WARNING (MsgHighThreadCount n)]
                         else [])
                     ++ [Called TimeTime true; Called (Sleep 30) true])) as ->.
  { subst r.
    unfold monitor_cycle, sample_once, sleep, try_except, mbind, M_bind, bind,
      invoke, log.
    rewrite Hrss. cbn -[Qgtb Qdiv inject_Z]. rewrite Hn. cbn -[Qgtb Qdiv inject_Z].
    fold mb.
    destruct (Qgtb mb 1000), (15 <? n); cbn -[Qgtb Qdiv inject_Z]; rewrite Hnow;
      reflexivity. }
  cbn [out trace].
  destruct (Qgtb mb 1000) eqn:Hmb;
    [apply Qgtb_lt in Hmb | apply Qgtb_le, Qle_not_lt in Hmb];
    (destruct (15 <? n) eqn:Hthreads;
     [apply Z.ltb_lt in Hthreads | apply Z.ltb_ge in Hthreads]);
    (split; [reflexivity|]); (split; [reflexivity|]);
    cbn [app]; repeat split; intros; try (intros Hin);
    repeat match goal with
      | Hin : _ ∈ _ :: _ |- _ =>
          apply elem_of_cons in Hin as [Hin|Hin]; [try discriminate|]
      | Hin : _ ∈ [] |- _ => now apply elem_of_nil in Hin
      end;
    try assumption; try contradiction; try lia;
    rewrite ?elem_of_cons; tauto.
Qed.

Lemma sample_once_keeps_flag self (w : W) self' :
  out (sample_once self w) = Ok self' ->
  monitoring self' = monitoring self /\ sleeps (trace (sample_once self w)) = [30].
Proof.
  unfold sample_once, sleep, mbind, M_bind, bind, invoke, log.
  destruct (psutil_Process_rss w) as [[rss|e1] w1]; cbn -[Qgtb]; [|discriminate].
  destruct (threading_active_count w1) as [[n|e2] w2]; cbn -[Qgtb]; [|discriminate].
  destruct (Qgtb _ 1000), (15 <? n); cbn -[Qgtb];
    (destruct (time_time w2) as [[now|e3] w3]; cbn; [|discriminate]);
    intros [= <-]; split; reflexivity.
Qed.

Lemma sleeps_app t1 t2 : sleeps (t1 ++ t2) = sleeps t1 ++ sleeps t2.
Proof. apply omap_app. Qed.

Lemma sleeps_none t : Forall sampling_step t -> sleeps t = [].
Proof.
  induction 1 as [|e t He _ IH]; [reflexivity|].
  unfold sleeps in *. cbn. rewrite IH. destruct e as [[] b|]; try reflexivity.
  destruct He.
Qed.

(** One turn: it returns, keeps the flag, and sleeps once. *)
Lemma monitor_cycle_run self (w : W) :
  exists self' w' t s,
    monitor_cycle self w = Run (Ok self') w' t
    /\ monitoring self' = monitoring self
    /\ sleeps t = [s] /\ (s = 30 \/ s = 60).
Proof.
  destruct (out (sample_once self w)) as [self'|e] eqn:Hout.
  - destruct (sample_once_keeps_flag self w self' Hout) as [Hflag Hs].
    exists self', (world (sample_once self w)), (trace (sample_once self w)), 30.
    unfold monitor_cycle. rewrite (try_except_Ok _ _ _ _ Hout).
    destruct (sample_once self w) as [o w' t]. cbn in *. subst o. auto.
  - destruct (sample_once_failure self w e Hout) as [Hsteps _].
    exists self, (time_sleep 60 (world (sample_once self w))),
      (trace (sample_once self w)
         ++ [Logged ERROR (MsgMonitoringError e); Called (Sleep 60) true]), 60.
    unfold monitor_cycle. rewrite (try_except_Raise _ _ _ _ Hout).
    repeat split; [|now right].
    rewrite sleeps_app, (sleeps_none _ Hsteps). reflexivity.
Qed.

Lemma monitor_loop_run turns self (w : W) :
  exists self' w' t,
    _monitor_loop turns self w = Run (Ok self') w' t
    /\ monitoring self' = monitoring self
    /\ (monitoring self = true ->
        length (sleeps t) = turns
        /\ Forall (fun s => s = 30 \/ s = 60) (sleeps t)).
Proof.
  revert self w. induction turns as [|turns IH]; intros self w.
  - exists self, w, []. repeat split; constructor.
  - cbn [_monitor_loop]. destruct (monitoring self) eqn:Hon.
    + destruct (monitor_cycle_run self w) as (s1 & w1 & t1 & s & Hrun & Hflag & Hs & H3060).
      destruct (IH s1 w1) as (s2 & w2 & t2 & Hrun2 & Hflag2 & Hsleeps).
      exists s2, w2, (t1 ++ t2).
      unfold mbind, M_bind, bind. rewrite Hrun, Hrun2.
      split; [reflexivity|]. split; [congruence|]. intros _.
      destruct Hsleeps as [Hlen Hall]; [congruence|].
      rewrite sleeps_app, Hs. cbn. split; [now rewrite Hlen|].
      constructor; assumption.
    + exists self, w, []. repeat split; [assumption | discriminate | discriminate].
Qed.

(** The loop never ends by an exception and never clears [monitoring]
    itself: after any number of turns the object still has the flag it
    started with. *)
Theorem monitor_loop_keeps_running turns self (w : W) :
  exists self',
    out (_monitor_loop turns self w) = Ok self'
    /\ monitoring self' = monitoring self.
Proof.
  destruct (monitor_loop_run turns self w) as (self' & w' & t & -> & Hflag & _).
  now exists self'.
Qed.

(** While [monitoring] is set, every turn of the loop sleeps exactly once,
    for 30 or for 60 seconds: the loop never spins. *)
Theorem monitor_loop_sleeps_every_turn turns self (w : W) :
  monitoring self = true ->
  length (sleeps (trace (_monitor_loop turns self w))) = turns
  /\ Forall (fun s => s = 30 \/ s = 60) (sleeps (trace (_monitor_loop turns self w))).
Proof.
  intros Hon.
  destruct (monitor_loop_run turns self w) as (self' & w' & t & -> & _ & Hs).
  now apply Hs.
Qed.

End sampler_more.

(** ** The entry point and its budget *)

Section entry.
Context `{Collaborators W}.


End entry.

(** ** The further properties on the example worlds *)

Lemma get_cache_usage_is_fraction_witness :
  let C := scripted (calm 0.85) in
  @psutil_virtual_memory _ C [file_a] = (Ok (vm_of 0.85), [file_a])
  /\ exists q, out (@get_cache_usage _ C memory_manager [file_a]) = Ok q
               /\ (0 <= q <= 1)%Q.
Proof.
  intros C. split; [reflexivity|].
  apply (@get_cache_usage_is_fraction _ C memory_manager [file_a]
           (vm_of 0.85) [file_a]); [reflexivity|cbn; lia..].
Defined.

Lemma cleanup_file_and_vectors_missing_key_witness :
  let C := scripted (calm 0.85) in
  let rec : gmap string pyval := {[ "id" := VStr "a" ]} in
  rec !! "filename" = None
  /\ exists key,
       @cleanup_file_and_vectors _ C memory_manager rec [file_a]
       = Run (Ok false) [file_a] [Logged ERROR (MsgCleanupError (KeyError key))]
       /\ (key = "id" \/ key = "filename").
Proof.
  intros C rec. split; [reflexivity|].
  apply (@cleanup_file_and_vectors_missing_key _ C memory_manager rec [file_a]).
  right. reflexivity.
Defined.

Lemma cleanup_file_and_vectors_metadata_only_witness :
  let C := scripted (dependents_down 0.85) in
  let w := [file_a; file_b] in
  truthy (dict_get (file_record file_b) "collection_name") = false
  /\ truthy (dict_get (file_record file_b) "path") = false
  /\ calls (trace (@cleanup_file_and_vectors _ C memory_manager
                     (file_record file_b) w))
     = [DeleteFileById (VStr "b")]
  /\ out (@cleanup_file_and_vectors _ C memory_manager (file_record file_b) w)
     = Ok (is_ok (@Files_delete_file_by_id _ C (VStr "b") w).1).
Proof.
  intros C w. split; [reflexivity|]. split; [reflexivity|].
  apply (@cleanup_file_and_vectors_metadata_only _ C memory_manager
           (file_record file_b) w (VStr "b") (VStr "b.txt")); reflexivity.
Defined.


Lemma catalog_delete_is_last_call_witness :
  let C := scripted (calm 0.85) in
  let w := [file_a; file_b] in
  file_record file_a !! "id" = Some (VStr "a")
  /\ exists before,
       calls (trace (@cleanup_file_and_vectors _ C memory_manager
                       (file_record file_a) w))
       = before ++ [DeleteFileById (VStr "a")]
       /\ Forall (fun c => is_vector_call c = true
                           \/ exists p, c = StorageDeleteFile p) before.
Proof.
  intros C w. split; [reflexivity|].
  apply (@catalog_delete_is_last_call _ C memory_manager (file_record file_a) w
           (VStr "a") (VStr "a.txt")); reflexivity.
Defined.

Lemma selection_is_well_formed :
  Forall has_id_and_filename [file_record file_b; file_record file_a].
Proof. repeat constructor; apply file_record_has_id_and_filename. Defined.

Lemma cleanup_each_attempts_every_record_witness :
  let C := scripted (catalog_unreachable 0.85) in
  (catalog_deletes
     (trace (@cleanup_each _ C memory_manager
               [file_record file_b; file_record file_a] 0 [file_a; file_b]))).*1
  = [VStr "b"; VStr "a"].
Proof.
  intros C.
  exact (@cleanup_each_attempts_every_record _ C memory_manager
           [file_record file_b; file_record file_a] 0 [file_a; file_b]
           selection_is_well_formed).
Defined.

Lemma cleanup_each_counts_catalog_successes_witness :
  let C := scripted (dependents_down 0.85) in
  out (@cleanup_each _ C memory_manager
         [file_record file_b; file_record file_a] 0 [file_a; file_b])
  = Ok (0 + successes
              (catalog_deletes
                 (trace (@cleanup_each _ C memory_manager
                           [file_record file_b; file_record file_a] 0
                           [file_a; file_b])))).
Proof.
  intros C.
  exact (@cleanup_each_counts_catalog_successes _ C memory_manager
           [file_record file_b; file_record file_a] 0 [file_a; file_b]
           selection_is_well_formed).
Defined.

Lemma report_counts_catalog_successes_witness :
  let C := scripted (dependents_down 0.85) in
  let w := [file_a; file_b; file_c] in
  exists rep,
    out (@perform_memory_cleanup _ C memory_manager 2 w) = Ok rep
    /\ cleaned_files rep = 2
    /\ cleaned_files rep
       = successes (catalog_deletes
                      (trace (@perform_memory_cleanup _ C memory_manager 2 w))).
Proof.
  intros C w. eexists. split; [reflexivity|]. split; [reflexivity|].
  apply (@report_counts_catalog_successes _ C memory_manager 2 w). reflexivity.
Defined.

Lemma pass_deletes_the_selection_witness :
  let C := scripted (calm 0.85) in
  let w := [file_a; file_b; file_c] in
  exists rep,
    out (@perform_memory_cleanup _ C memory_manager 2 w) = Ok rep
    /\ exists oldest_files,
         out (@get_oldest_files _ C memory_manager 2
                (world (@get_cache_usage _ C memory_manager
                          (world (@get_memory_usage _ C memory_manager w)))))
         = Ok oldest_files
         /\ (catalog_deletes
               (trace (@perform_memory_cleanup _ C memory_manager 2 w))).*1
            = record_ids oldest_files.
Proof.
  intros C w. eexists. split; [reflexivity|].
  apply (@pass_deletes_the_selection _ C memory_manager 2 w _ eq_refl).
Defined.

Lemma report_within_cleanup_count_witness :
  let C := scripted (calm 0.85) in
  let w := [file_a; file_b; file_c] in
  exists rep,
    out (@perform_memory_cleanup _ C memory_manager 2 w) = Ok rep
    /\ 0 <= cleaned_files rep <= 2.
Proof.
  intros C w. eexists. split; [reflexivity|].
  apply (@report_within_cleanup_count _ C memory_manager 2 w); [lia|reflexivity].
Defined.

Lemma nothing_to_evict_witness :
  let C := scripted (calm 0.85) in
  exists memory cache,
    out (@get_memory_usage _ C memory_manager []) = Ok memory
    /\ out (@get_cache_usage _ C memory_manager []) = Ok cache
    /\ out (@get_oldest_files _ C memory_manager 3 []) = Ok []
    /\ out (@perform_memory_cleanup _ C memory_manager 3 [])
       = Ok {| cleaned_files := 0;
               memory_before := memory; memory_after := memory;
               cache_before := cache; cache_after := cache;
               freed_memory := 0 |}
    /\ calls (trace (@perform_memory_cleanup _ C memory_manager 3 []))
       = [VirtualMemory; VirtualMemory; GetFiles]
    /\ Logged WARNING MsgNoFiles
         ∈ trace (@perform_memory_cleanup _ C memory_manager 3 []).
Proof.
  intros C. eexists _, _.
  split; [reflexivity|]. split; [reflexivity|]. split; [reflexivity|].
  apply (@nothing_to_evict _ C memory_manager 3 [] _ _ eq_refl eq_refl eq_refl).
Defined.

Lemma get_oldest_files_keeps_catalog_order_on_ties_witness :
  let C := scripted (calm 0.85) in
  let w := [file_a; file_d; file_b] in
  0 <= 2
  /\ exists oldest rest,
       out (@get_oldest_files _ C memory_manager 2 w) = Ok (file_record <$> oldest)
       /\ length oldest = Nat.min (Z.to_nat 2) (length w)
       /\ forall t,
            filter (fun f => created_at f = t) (oldest ++ rest)
            = filter (fun f => created_at f = t) w.
Proof.
  intros C w. split; [lia|].
  apply (@get_oldest_files_keeps_catalog_order_on_ties _ C memory_manager 2 w w w);
    [lia|reflexivity].
Defined.

Lemma measured_cycle_publishes_witness :
  let C := scripted (calm 0.85) in
  let r := @monitor_cycle _ C (start_monitoring resource_monitor) [] in
  @psutil_Process_rss _ C [] = (Ok 1048576, [])
  /\ out r = Ok {| monitoring := true;
                   stats := Some {| memory_mb := (inject_Z 1048576 / 1024 / 1024)%Q;
                                    thread_count := 4; timestamp := 0%Q |} |}
  /\ sleeps (trace r) = [30].
Proof.
  intros C r. split; [reflexivity|].
  pose proof (@measured_cycle_publishes _ C (start_monitoring resource_monitor) []
                1048576 [] 4 [] 0%Q [] eq_refl eq_refl eq_refl)
    as (Hout & Hsleeps & _).
  split; [exact Hout | exact Hsleeps].
Defined.

Lemma monitor_loop_sleeps_every_turn_witness :
  let C := scripted sampler_blind in
  monitoring (start_monitoring resource_monitor) = true
  /\ length (sleeps (trace (@_monitor_loop _ C 2 (start_monitoring resource_monitor)
                              []))) = 2%nat
  /\ Forall (fun s => s = 30 \/ s = 60)
       (sleeps (trace (@_monitor_loop _ C 2 (start_monitoring resource_monitor) []))).
Proof.
  intros C. split; [reflexivity|].
  apply (@monitor_loop_sleeps_every_turn _ C 2 (start_monitoring resource_monitor) []).
  reflexivity.
Defined.


(** ** The project tree *)

Lemma string_app_assoc (a b c : string) : (a +:+ b) +:+ c = a +:+ (b +:+ c).
Proof.
  induction a as [|x a IH]; [reflexivity|]. exact (f_equal (String x) IH).
Qed.

Lemma starts_with_app prefix extension line :
  starts_with (prefix +:+ extension) line -> starts_with prefix line.
Proof. intros [rest ->]. exists (extension +:+ rest). apply string_app_assoc. Qed.

Lemma StronglySorted_filter {A} (R : relation A) (P : A -> Prop)
    `{forall x, Decision (P x)} l :
  StronglySorted R l -> StronglySorted R (filter P l).
Proof.
  induction 1 as [|x l Hl IH Hx]; [constructor|].
  rewrite filter_cons. destruct (decide (P x)); [|exact IH].
  constructor; [exact IH|].
  rewrite Forall_forall in Hx |- *. intros y Hy.
  apply Hx. now apply list_elem_of_filter in Hy as [_ Hy].
Qed.

Section project_tree_properties.
Variable os_listdir : string -> outcome (list string).
Variable os_path_isdir : string -> bool.
Variable os_path_join : string -> string -> string.

Lemma tree_entries_start_with_prefix recur start_path prefix len idx files
    tree_lines lines :
  (forall p pre sub, recur p pre = Ok sub -> Forall (starts_with pre) sub) ->
  Forall (starts_with prefix) tree_lines ->
  tree_entries os_path_isdir os_path_join recur start_path prefix len idx files
    tree_lines = Ok lines ->
  Forall (starts_with prefix) lines.
Proof.
  intros Hrecur. revert idx tree_lines.
  induction files as [|file rest IH]; intros idx tree_lines Hacc; cbn [tree_entries].
  - now intros [= <-].
  - destruct (String.eqb file ".git"); [now apply IH|].
    assert (Forall (starts_with prefix)
              (tree_lines
                 ++ [prefix +:+ (if idx =? len - 1 then "└── " else "├── ") +:+ file]))
      as Hacc'.
    { apply Forall_app. split; [exact Hacc|]. repeat constructor. now eexists. }
    destruct (os_path_isdir (os_path_join start_path file)); [|now apply IH].
    destruct (recur _ _) as [sub|e] eqn:Hsub; [|discriminate].
    apply IH. apply Forall_app. split; [exact Hacc'|].
    eapply Forall_impl; [exact (Hrecur _ _ _ Hsub)|].
    intros line. apply starts_with_app.
Qed.

(** Every line of a tree starts with the prefix it was asked for. *)
Theorem generate_tree_lines_start_with_prefix depth start_path prefix lines :
  generate_tree os_listdir os_path_isdir os_path_join depth start_path prefix
  = Ok lines ->
  Forall (starts_with prefix) lines.
Proof.
  revert start_path prefix lines.
  induction depth as [|depth IH]; intros start_path prefix lines;
    cbn [generate_tree]; [discriminate|].
  destruct (os_listdir start_path) as [names|e]; [|discriminate].
  apply tree_entries_start_with_prefix; [exact IH | constructor].
Qed.

Lemma tree_entries_flat recur start_path prefix len idx files tree_lines :
  (forall file, file ∈ files -> file <> ".git" ->
                os_path_isdir (os_path_join start_path file) = false) ->
  idx + Z.of_nat (length files) = len ->
  tree_entries os_path_isdir os_path_join recur start_path prefix len idx files
    tree_lines
  = Ok (tree_lines ++ flat_lines prefix files).
Proof.
  revert idx tree_lines.
  induction files as [|file rest IH]; intros idx tree_lines Hflat Hlen;
    cbn [tree_entries flat_lines].
  - now rewrite app_nil_r.
  - assert (forall f, f ∈ rest -> f <> ".git" ->
                      os_path_isdir (os_path_join start_path f) = false) as Hrest.
    { intros f Hf. apply Hflat. now right. }
    assert (idx + 1 + Z.of_nat (length rest) = len) as Hlen'.
    { cbn [length] in Hlen. lia. }
    destruct (String.eqb file ".git") eqn:Hgit; [now apply IH|].
    rewrite (Hflat file); [|now left | now apply String.eqb_neq].
    rewrite (IH _ _ Hrest Hlen'), <- app_assoc. do 3 f_equal.
    destruct rest as [|f rest'].
    + cbn [length] in Hlen'. now replace (idx =? len - 1) with true by lia.
    + cbn [length] in Hlen'. now replace (idx =? len - 1) with false by lia.
Qed.

Lemma flat_lines_names prefix files :
  exists connectors,
    flat_lines prefix files
    = zip_with (fun c file => prefix +:+ c +:+ file) connectors
        (filter (fun file => file <> ".git") files)
    /\ length connectors = length (filter (fun file => file <> ".git") files)
    /\ Forall (fun c => c = "├── " \/ c = "└── ") connectors.
Proof.
  induction files as [|file rest (cs & Hlines & Hlen & Hcs)]; cbn [flat_lines].
  - exists []. repeat split. constructor.
  - rewrite filter_cons. destruct (String.eqb file ".git") eqn:Hgit.
    + apply String.eqb_eq in Hgit. rewrite decide_False by tauto.
      exists cs. now rewrite Hlines.
    + apply String.eqb_neq in Hgit. rewrite decide_True by assumption.
      exists ((match rest with [] => "└── " | _ => "├── " end) :: cs).
      cbn. rewrite Hlines, Hlen. repeat split.
      constructor; [destruct rest; auto | exact Hcs].
Qed.

(** A directory without subdirectories: the lines are its names other than
    [.git], in ascending order, each after the prefix and a connector.
    [.git] is not opened, and the depth left does not matter. *)
Theorem generate_tree_flat_directory depth start_path prefix names :
  os_listdir start_path = Ok names ->
  (forall file, file ∈ names -> file <> ".git" ->
                os_path_isdir (os_path_join start_path file) = false) ->
  exists kept connectors,
    generate_tree os_listdir os_path_isdir os_path_join (S depth) start_path prefix
    = Ok (zip_with (fun c file => prefix +:+ c +:+ file) connectors kept)
    /\ kept ≡ₚ filter (fun file => file <> ".git") names
    /\ Sorted String.le kept
    /\ length connectors = length kept
    /\ Forall (fun c => c = "├── " \/ c = "└── ") connectors.
Proof.
  intros Hnames Hflat. cbn [generate_tree]. rewrite Hnames.
  rewrite tree_entries_flat; [| |lia].
  2: { intros file Hin. apply Hflat.
       unfold sorted_names in Hin. now rewrite merge_sort_Permutation in Hin. }
  destruct (flat_lines_names prefix (sorted_names names)) as (cs & Hlines & Hlen & Hcs).
  exists (filter (fun file => file <> ".git") (sorted_names names)), cs.
  rewrite app_nil_l, Hlines. repeat split; try assumption.
  - unfold sorted_names. now rewrite merge_sort_Permutation.
  - apply StronglySorted_Sorted, StronglySorted_filter.
    apply StronglySorted_merge_sort; apply _.
Qed.

Lemma flat_lines_git_last prefix files :
  last files = Some ".git" ->
  flat_lines prefix files
  = (fun file => prefix +:+ "├── " +:+ file)
      <$> filter (fun file => file <> ".git") files.
Proof.
  induction files as [|file rest IH]; [discriminate|].
  intros Hlast. cbn [flat_lines]. rewrite filter_cons.
  destruct rest as [|f rest'].
  - injection Hlast as ->. cbn. now rewrite decide_False by tauto.
  - rewrite IH by exact Hlast.
    destruct (String.eqb file ".git") eqn:Hgit.
    + apply String.eqb_eq in Hgit. now rewrite decide_False by tauto.
    + apply String.eqb_neq in Hgit. now rewrite decide_True by assumption.
Qed.

Lemma sorted_names_git_last names :
  ".git" ∈ names ->
  (forall file, file ∈ names -> String.le file ".git") ->
  last (sorted_names names) = Some ".git".
Proof.
  intros Hgit Hmax.
  assert (StronglySorted String.le (sorted_names names)) as Hsorted
    by (apply StronglySorted_merge_sort; apply _).
  assert (forall file, file ∈ sorted_names names -> String.le file ".git") as Hmax'.
  { intros file Hin. apply Hmax. unfold sorted_names in Hin.
    now rewrite merge_sort_Permutation in Hin. }
  assert (".git" ∈ sorted_names names) as Hin
    by (unfold sorted_names; now rewrite merge_sort_Permutation).
  revert Hsorted Hmax' Hin. generalize (sorted_names names) as l.
  induction l as [|x l IH]; intros Hsorted Hmax' Hin; [now apply elem_of_nil in Hin|].
  apply StronglySorted_inv in Hsorted as [Hl Hx].
  destruct l as [|y l'].
  - apply list_elem_of_singleton in Hin as ->. reflexivity.
  - change (last (x :: y :: l')) with (last (y :: l')).
    apply IH; [exact Hl | intros f Hf; apply Hmax'; now right|].
    apply elem_of_cons in Hin as [<-|Hin]; [|exact Hin].
    assert (y = ".git") as ->; [|now left].
    apply (anti_symm String.le).
    + apply Hmax'. right. now left.
    + rewrite Forall_forall in Hx. apply Hx. now left.
Qed.

(** The closing connector goes with the last name of the sorted listing,
    skipped or not: when [.git] is that name, no line of a directory
    without subdirectories closes the listing. *)
Theorem generate_tree_git_last_never_closes depth start_path prefix names :
  os_listdir start_path = Ok names ->
  (forall file, file ∈ names -> file <> ".git" ->
                os_path_isdir (os_path_join start_path file) = false) ->
  ".git" ∈ names ->
  (forall file, file ∈ names -> String.le file ".git") ->
  exists kept,
    generate_tree os_listdir os_path_isdir os_path_join (S depth) start_path prefix
    = Ok ((fun file => prefix +:+ "├── " +:+ file) <$> kept)
    /\ kept ≡ₚ filter (fun file => file <> ".git") names.
Proof.
  intros Hnames Hflat Hgit Hmax. cbn [generate_tree]. rewrite Hnames.
  rewrite tree_entries_flat; [| |lia].
  2: { intros file Hin. apply Hflat.
       unfold sorted_names in Hin. now rewrite merge_sort_Permutation in Hin. }
  exists (filter (fun file => file <> ".git") (sorted_names names)).
  rewrite app_nil_l, (flat_lines_git_last _ _ (sorted_names_git_last names Hgit Hmax)).
  split; [reflexivity|].
  unfold sorted_names. now rewrite merge_sort_Permutation.
Qed.

End project_tree_properties.

Lemma demo_directory_is_flat file :
  file ∈ [".env"; ".git"; ".dockerignore"] -> file <> ".git" ->
  demo_isdir (demo_join "static" file) = false.
Proof.
  intros Hin Hgit.
  repeat (apply elem_of_cons in Hin as [->|Hin]; [try reflexivity; congruence|]).
  now apply elem_of_nil in Hin.
Defined.

Lemma demo_git_is_greatest file :
  file ∈ [".env"; ".git"; ".dockerignore"] -> String.le file ".git".
Proof.
  intros Hin.
  repeat (apply elem_of_cons in Hin as [->|Hin]; [exact I|]).
  now apply elem_of_nil in Hin.
Defined.

Lemma generate_tree_lines_start_with_prefix_witness :
  generate_tree demo_listdir demo_isdir demo_join 2 "static" "  "
  = Ok ["  ├── .dockerignore"; "  ├── .env"]
  /\ Forall (starts_with "  ") ["  ├── .dockerignore"; "  ├── .env"].
Proof.
  split; [reflexivity|].
  apply (generate_tree_lines_start_with_prefix demo_listdir demo_isdir demo_join
           2 "static" "  "). reflexivity.
Defined.

Lemma generate_tree_flat_directory_witness :
  demo_listdir "static" = Ok [".env"; ".git"; ".dockerignore"]
  /\ demo_isdir (demo_join "static" ".git") = true
  /\ exists kept connectors,
       generate_tree demo_listdir demo_isdir demo_join 1 "static" ""
       = Ok (zip_with (fun c file => "" +:+ c +:+ file) connectors kept)
       /\ kept ≡ₚ filter (fun file => file <> ".git")
                    [".env"; ".git"; ".dockerignore"]
       /\ Sorted String.le kept
       /\ length connectors = length kept
       /\ Forall (fun c => c = "├── " \/ c = "└── ") connectors.
Proof.
  split; [reflexivity|]. split; [reflexivity|].
  apply (generate_tree_flat_directory demo_listdir demo_isdir demo_join 0 "static" ""
           [".env"; ".git"; ".dockerignore"] eq_refl demo_directory_is_flat).
Defined.

Lemma generate_tree_git_last_never_closes_witness :
  ".git" ∈ [".env"; ".git"; ".dockerignore"]
  /\ exists kept,
       generate_tree demo_listdir demo_isdir demo_join 1 "static" ""
       = Ok ((fun file => "" +:+ "├── " +:+ file) <$> kept)
       /\ kept ≡ₚ filter (fun file => file <> ".git")
                    [".env"; ".git"; ".dockerignore"].
Proof.
  assert (".git" ∈ [".env"; ".git"; ".dockerignore"]) as Hgit
    by (right; left).
  split; [exact Hgit|].
  apply (generate_tree_git_last_never_closes demo_listdir demo_isdir demo_join 0
           "static" "" [".env"; ".git"; ".dockerignore"] eq_refl
           demo_directory_is_flat Hgit demo_git_is_greatest).
Defined.
